(** * AEAD key templates of Tink (python/tink/aead/_aead_key_templates.py)

    The module builds [KeyTemplate] messages: each [create_*] function
    fills a key-format message field by field, serializes it and wraps the
    bytes together with a type URL and the TINK output prefix type.

    The development is organised as follows:
    - [result]: the error monad for the exceptions the field setters raise;
    - [Wire]: the binary record format the messages are serialized in;
    - [common_pb2], [aes_eax_pb2], ... : the message declarations the source
      imports, one module per imported [*_pb2] module;
    - the source functions and the catalog of constants;
    - [Spec]: the encoder and assembler in the words of the specification;
    - the theorems. *)

From Stdlib Require Import String ZArith List Bool Lia.
Import ListNotations.
Local Open Scope Z_scope.

(** ** Errors

    A field setter that is handed a value its field cannot hold raises;
    the exception leaves the [create_*] function at the assignment. *)

Inductive EncodingError : Type :=
| ValueOutOfRange (v : Z).

Inductive result (A : Type) : Type :=
| Ok (a : A)
| Raise (e : EncodingError).

Arguments Ok {A} a.
Arguments Raise {A} e.

Definition bind {A B : Type} (m : result A) (k : A -> result B) : result B :=
  match m with
  | Ok a => k a
  | Raise e => Raise e
  end.

Notation "x <- m ;; k" := (bind m (fun x => k))
  (at level 61, m at next level, right associativity).

Definition returns {A : Type} (m : result A) : bool :=
  match m with
  | Ok _ => true
  | Raise _ => false
  end.

Definition to_option {A : Type} (m : result A) : option A :=
  match m with
  | Ok a => Some a
  | Raise _ => None
  end.

Definition obind {A B : Type} (m : option A) (k : A -> option B) : option B :=
  match m with
  | Some a => k a
  | None => None
  end.

Notation "x <-? m ;; k" := (obind m (fun x => k))
  (at level 61, m at next level, right associativity).

(** ** The wire format *)

Module Wire.

(** A byte is an integer in [0, 256); a byte string is a list of them. *)
Definition bytes : Type := list Z.

Definition is_byte (b : Z) : Prop := 0 <= b < 256.

Definition WIRETYPE_VARINT : Z := 0.
Definition WIRETYPE_FIXED64 : Z := 1.
Definition WIRETYPE_LENGTH_DELIMITED : Z := 2.
Definition WIRETYPE_FIXED32 : Z := 5.

Definition TAG_TYPE_BITS : Z := 3.
Definition TAG_TYPE_MASK : Z := 7.

Definition UINT32_MAX : Z := 4294967295.
Definition INT32_MIN : Z := -2147483648.
Definition INT32_MAX : Z := 2147483647.
Definition UINT64_MAX : Z := 18446744073709551615.

Definition PackTag (field_number wire_type : Z) : Z :=
  Z.lor (Z.shiftl field_number TAG_TYPE_BITS) wire_type.

Definition UnpackTag (tag : Z) : Z * Z :=
  (Z.shiftr tag TAG_TYPE_BITS, Z.land tag TAG_TYPE_MASK).

(** Modelled from the spec: the serialization mechanism (section 4.1, "the
    canonical, self-describing binary encoding ... field-tagged ...
    schema-driven binary serialization") is the protocol-buffers runtime,
    which is not part of the source file.  Integers are written as base-128
    varints, least significant group first, the high bit of a byte saying
    that another byte follows:
    [bits = value & 0x7f; value >>= 7;
     while value: write(0x80|bits); bits = value & 0x7f; value >>= 7;
     write(bits)].
    The loop runs once per remaining 7-bit group, so [Z.log2 value] steps
    are always enough for a number that is not negative; the writers below
    never pass a negative one. *)
Fixpoint EncodeVarint_loop (fuel : nat) (bits value : Z) : bytes :=
  if value =? 0 then [bits]
  else match fuel with
       | O => [bits]
       | S fuel' =>
           Z.lor 128 bits ::
             EncodeVarint_loop fuel' (Z.land value 127) (Z.shiftr value 7)
       end.

Definition EncodeVarint (value : Z) : bytes :=
  EncodeVarint_loop (Z.to_nat (Z.log2 value))
    (Z.land value 127) (Z.shiftr value 7).

(** Signed 32-bit values (enum numbers) are written as the varint of their
    64-bit two's complement. *)
Definition EncodeSignedVarint (value : Z) : bytes :=
  EncodeVarint (if value <? 0 then value + 2 ^ 64 else value).

Definition TagBytes (field_number wire_type : Z) : bytes :=
  EncodeVarint (PackTag field_number wire_type).

(** Modelled from the spec: reading a varint back (the deserialization of
    section 6's consumer contract, absent from the source file):
    [result |= (b & 0x7f) << shift] per byte, stopping at the first byte
    without the high bit, failing when the buffer ends or after ten
    bytes. *)
Fixpoint DecodeVarint_loop (mask : Z) (buffer : bytes) (result shift : Z)
  : option (Z * bytes) :=
  match buffer with
  | [] => None
  | b :: rest =>
      let result := Z.lor result (Z.shiftl (Z.land b 127) shift) in
      if Z.land b 128 =? 0 then Some (Z.land result mask, rest)
      else
        let shift := shift + 7 in
        if 64 <=? shift then None
        else DecodeVarint_loop mask rest result shift
  end.

Definition DecodeVarint (buffer : bytes) : option (Z * bytes) :=
  DecodeVarint_loop UINT64_MAX buffer 0 0.

(** A field as it stands on the wire, before the message declaration gives
    it a meaning. *)
Inductive RawValue : Type :=
| RawVarint (v : Z)
| RawFixed64 (bs : bytes)
| RawBytes (bs : bytes)
| RawFixed32 (bs : bytes).

Definition RawField : Type := (Z * RawValue)%type.

Definition take (n : Z) (buffer : bytes) : option (bytes * bytes) :=
  if Z.of_nat (length buffer) <? n then None
  else Some (firstn (Z.to_nat n) buffer, skipn (Z.to_nat n) buffer).

(** Modelled from the spec: splitting a buffer into its tagged fields.
    Every field starts with a tag of at least one byte, so the length of
    the buffer bounds the number of fields. *)
Fixpoint ReadFields (fuel : nat) (buffer : bytes) : option (list RawField) :=
  match buffer with
  | [] => Some []
  | _ :: _ =>
      match fuel with
      | O => None
      | S fuel' =>
          tr <-? DecodeVarint buffer ;;
          let '(tag, rest) := tr in
          let '(field_number, wire_type) := UnpackTag tag in
          if field_number =? 0 then None
          else if wire_type =? WIRETYPE_VARINT then
            vr <-? DecodeVarint rest ;;
            let '(v, rest') := vr in
            fs <-? ReadFields fuel' rest' ;;
            Some ((field_number, RawVarint v) :: fs)
          else if wire_type =? WIRETYPE_FIXED64 then
            pr <-? take 8 rest ;;
            let '(payload, rest') := pr in
            fs <-? ReadFields fuel' rest' ;;
            Some ((field_number, RawFixed64 payload) :: fs)
          else if wire_type =? WIRETYPE_LENGTH_DELIMITED then
            nr <-? DecodeVarint rest ;;
            let '(n, rest') := nr in
            pr <-? take n rest' ;;
            let '(payload, rest'') := pr in
            fs <-? ReadFields fuel' rest'' ;;
            Some ((field_number, RawBytes payload) :: fs)
          else if wire_type =? WIRETYPE_FIXED32 then
            pr <-? take 4 rest ;;
            let '(payload, rest') := pr in
            fs <-? ReadFields fuel' rest' ;;
            Some ((field_number, RawFixed32 payload) :: fs)
          else None
      end
  end.

Definition ParseFields (buffer : bytes) : option (list RawField) :=
  ReadFields (length buffer) buffer.

(** Modelled from the spec: the writers of one field each, part of the
    same absent runtime.  A scalar that holds its default is not written; a
    message field that is present is written even when empty. *)
Definition WriteUInt32 (field_number value : Z) : bytes :=
  if value =? 0 then []
  else TagBytes field_number WIRETYPE_VARINT ++ EncodeVarint value.

Definition WriteEnum (field_number value : Z) : bytes :=
  if value =? 0 then []
  else TagBytes field_number WIRETYPE_VARINT ++ EncodeSignedVarint value.

Definition WriteMessage (field_number : Z) (body : option bytes) : bytes :=
  match body with
  | None => []
  | Some bs =>
      TagBytes field_number WIRETYPE_LENGTH_DELIMITED
        ++ EncodeVarint (Z.of_nat (length bs)) ++ bs
  end.

(** Modelled from the spec: the readers of one varint each, as the
    declared type of the field says. *)
Definition AsUInt32 (v : Z) : Z := Z.land v UINT32_MAX.

Definition AsInt32 (v : Z) : Z :=
  let r := Z.land v UINT32_MAX in
  if 2147483647 <? r then r - 2 ^ 32 else r.

(** The fields a writer leaves on the wire. *)
Definition scalar_fields (field_number value : Z) : list RawField :=
  if value =? 0 then [] else [(field_number, RawVarint value)].

Definition enum_fields (field_number value : Z) : list RawField :=
  if value =? 0 then []
  else [(field_number,
          RawVarint (if value <? 0 then value + 2 ^ 64 else value))].

Definition message_fields (field_number : Z) (body : option bytes)
  : list RawField :=
  match body with
  | None => []
  | Some bs => [(field_number, RawBytes bs)]
  end.

End Wire.

(** ** Message declarations

    Modelled from the spec: the message declarations of the imported
    [tink.proto] modules ([common_pb2], [aes_eax_pb2], [aes_gcm_pb2],
    [aes_gcm_siv_pb2], [aes_ctr_hmac_aead_pb2], [tink_pb2]) are not part of
    the source file.  Section 3 gives the shape of each parameter record;
    the field numbers and widths are those of the declarations: every size
    is an unsigned 32-bit field, the hash is an open enum field of 32
    signed bits.  Only the fields the source assigns are modelled. *)

Module type_checkers.

(** Modelled from the spec: the setter of a size field, part of the
    serialization runtime that is not in the source file ("if the underlying
    serialization mechanism cannot represent a value ... it fails with an
    EncodingError").  A size field is unsigned and 32 bits wide; assigning
    a value outside [0, 2^32) raises at the assignment. *)
Definition CheckUInt32 (v : Z) : result Z :=
  if (0 <=? v) && (v <=? Wire.UINT32_MAX) then Ok v
  else Raise (ValueOutOfRange v).

(** Modelled from the spec: the setter of an enum field, part of the same
    runtime.  The message declarations are proto3, whose enums are open:
    the setter takes every number that fits the signed 32-bit field,
    declared or not, and refuses the others with the range error.  (The
    spec's "enum out of its declared domain ... fails" describes a closed
    enum; [Spec.encode] below follows those words.) *)
Definition CheckInt32 (v : Z) : result Z :=
  if (Wire.INT32_MIN <=? v) && (v <=? Wire.INT32_MAX) then Ok v
  else Raise (ValueOutOfRange v).

(** Folding the fields read from a buffer into a message.  A field the
    declaration does not know is skipped. *)
Fixpoint MergeFields {M : Type} (merge : M -> Wire.RawField -> option M)
  (fs : list Wire.RawField) (m : M) : option M :=
  match fs with
  | [] => Some m
  | f :: fs' => m' <-? merge m f ;; MergeFields merge fs' m'
  end.

Definition MergeFromString {M : Type}
  (merge : M -> Wire.RawField -> option M) (buffer : Wire.bytes) (m : M)
  : option M :=
  fs <-? Wire.ParseFields buffer ;; MergeFields merge fs m.

(** Reading a message field: the message that is there, or a fresh one. *)
Definition mutable {M : Type} (new : M) (field : option M) : M :=
  match field with
  | Some m => m
  | None => new
  end.

End type_checkers.

Module common_pb2.

(** Modelled from the spec: the hash enum of [common_pb2], whose
    declaration is not in the source file ("hash_algorithm is drawn from a
    fixed enumerated set (e.g., SHA-256, SHA-512)"), with the numbers of
    the declaration.  The setter does not consult it (see [CheckInt32]). *)
Definition UNKNOWN_HASH : Z := 0.
Definition SHA1 : Z := 1.
Definition SHA384 : Z := 2.
Definition SHA256 : Z := 3.
Definition SHA512 : Z := 4.

Definition HashType_values : list Z :=
  [UNKNOWN_HASH; SHA1; SHA384; SHA256; SHA512].

End common_pb2.

Module aes_eax_pb2.
Import type_checkers.

(** Modelled from the spec: the EAX parameter record of section 3,
    { key_size_bytes, iv_size_bytes }, as the message [AesEaxKeyFormat]
    declares it: [params] (field 1) holding [iv_size] (field 1), and
    [key_size] (field 2). *)
Record AesEaxParams : Type := { iv_size : Z }.

Record AesEaxKeyFormat : Type :=
  { params : option AesEaxParams; key_size : Z }.

Definition AesEaxParams_new : AesEaxParams := {| iv_size := 0 |}.

Definition AesEaxKeyFormat_new : AesEaxKeyFormat :=
  {| params := None; key_size := 0 |}.

Definition set_iv_size (v : Z) (m : AesEaxParams) : result AesEaxParams :=
  v' <- CheckUInt32 v ;; Ok {| iv_size := v' |}.

(** [m.params.<field> = v]: the sub-message is created on first access and
    is present once one of its fields has been assigned. *)
Definition with_params (set : AesEaxParams -> result AesEaxParams)
  (m : AesEaxKeyFormat) : result AesEaxKeyFormat :=
  p <- set (mutable AesEaxParams_new (params m)) ;;
  Ok {| params := Some p; key_size := key_size m |}.

Definition set_key_size (v : Z) (m : AesEaxKeyFormat)
  : result AesEaxKeyFormat :=
  v' <- CheckUInt32 v ;; Ok {| params := params m; key_size := v' |}.

Definition AesEaxParams_SerializeToString (m : AesEaxParams) : Wire.bytes :=
  Wire.WriteUInt32 1 (iv_size m).

Definition SerializeToString (m : AesEaxKeyFormat) : Wire.bytes :=
  Wire.WriteMessage 1 (option_map AesEaxParams_SerializeToString (params m))
    ++ Wire.WriteUInt32 2 (key_size m).

Definition AesEaxParams_MergeField (m : AesEaxParams) (f : Wire.RawField)
  : option AesEaxParams :=
  match f with
  | (1, Wire.RawVarint v) => Some {| iv_size := Wire.AsUInt32 v |}
  | _ => Some m
  end.

Definition MergeField (m : AesEaxKeyFormat) (f : Wire.RawField)
  : option AesEaxKeyFormat :=
  match f with
  | (1, Wire.RawBytes bs) =>
      p <-? MergeFromString AesEaxParams_MergeField bs
              (mutable AesEaxParams_new (params m)) ;;
      Some {| params := Some p; key_size := key_size m |}
  | (2, Wire.RawVarint v) =>
      Some {| params := params m; key_size := Wire.AsUInt32 v |}
  | _ => Some m
  end.

Definition ParseFromString (buffer : Wire.bytes) : option AesEaxKeyFormat :=
  MergeFromString MergeField buffer AesEaxKeyFormat_new.

End aes_eax_pb2.

Module aes_gcm_pb2.
Import type_checkers.

(** Modelled from the spec: the GCM parameter record of section 3,
    { key_size_bytes }, as the message [AesGcmKeyFormat] declares it:
    [key_size] (field 2). *)
Record AesGcmKeyFormat : Type := { key_size : Z }.

Definition AesGcmKeyFormat_new : AesGcmKeyFormat := {| key_size := 0 |}.

Definition set_key_size (v : Z) (m : AesGcmKeyFormat)
  : result AesGcmKeyFormat :=
  v' <- CheckUInt32 v ;; Ok {| key_size := v' |}.

Definition SerializeToString (m : AesGcmKeyFormat) : Wire.bytes :=
  Wire.WriteUInt32 2 (key_size m).

Definition MergeField (m : AesGcmKeyFormat) (f : Wire.RawField)
  : option AesGcmKeyFormat :=
  match f with
  | (2, Wire.RawVarint v) => Some {| key_size := Wire.AsUInt32 v |}
  | _ => Some m
  end.

Definition ParseFromString (buffer : Wire.bytes) : option AesGcmKeyFormat :=
  MergeFromString MergeField buffer AesGcmKeyFormat_new.

End aes_gcm_pb2.

Module aes_gcm_siv_pb2.
Import type_checkers.

(** Modelled from the spec: the GCM-SIV parameter record of section 3,
    { key_size_bytes }, as the message [AesGcmSivKeyFormat] declares it:
    [key_size] (field 2). *)
Record AesGcmSivKeyFormat : Type := { key_size : Z }.

Definition AesGcmSivKeyFormat_new : AesGcmSivKeyFormat :=
  {| key_size := 0 |}.

Definition set_key_size (v : Z) (m : AesGcmSivKeyFormat)
  : result AesGcmSivKeyFormat :=
  v' <- CheckUInt32 v ;; Ok {| key_size := v' |}.

Definition SerializeToString (m : AesGcmSivKeyFormat) : Wire.bytes :=
  Wire.WriteUInt32 2 (key_size m).

Definition MergeField (m : AesGcmSivKeyFormat) (f : Wire.RawField)
  : option AesGcmSivKeyFormat :=
  match f with
  | (2, Wire.RawVarint v) => Some {| key_size := Wire.AsUInt32 v |}
  | _ => Some m
  end.

Definition ParseFromString (buffer : Wire.bytes)
  : option AesGcmSivKeyFormat :=
  MergeFromString MergeField buffer AesGcmSivKeyFormat_new.

End aes_gcm_siv_pb2.

Module aes_ctr_pb2.
Import type_checkers.

(** Modelled from the spec: the inner cipher of the CTR-HMAC parameter
    record of section 3, { key_size_bytes, iv_size_bytes }, as the message
    [AesCtrKeyFormat] declares it: [params] (field 1) holding [iv_size]
    (field 1), and [key_size] (field 2). *)
Record AesCtrParams : Type := { iv_size : Z }.

Record AesCtrKeyFormat : Type :=
  { params : option AesCtrParams; key_size : Z }.

Definition AesCtrParams_new : AesCtrParams := {| iv_size := 0 |}.

Definition AesCtrKeyFormat_new : AesCtrKeyFormat :=
  {| params := None; key_size := 0 |}.

Definition set_iv_size (v : Z) (m : AesCtrParams) : result AesCtrParams :=
  v' <- CheckUInt32 v ;; Ok {| iv_size := v' |}.

Definition with_params (set : AesCtrParams -> result AesCtrParams)
  (m : AesCtrKeyFormat) : result AesCtrKeyFormat :=
  p <- set (mutable AesCtrParams_new (params m)) ;;
  Ok {| params := Some p; key_size := key_size m |}.

Definition set_key_size (v : Z) (m : AesCtrKeyFormat)
  : result AesCtrKeyFormat :=
  v' <- CheckUInt32 v ;; Ok {| params := params m; key_size := v' |}.

Definition AesCtrParams_SerializeToString (m : AesCtrParams) : Wire.bytes :=
  Wire.WriteUInt32 1 (iv_size m).

Definition SerializeToString (m : AesCtrKeyFormat) : Wire.bytes :=
  Wire.WriteMessage 1 (option_map AesCtrParams_SerializeToString (params m))
    ++ Wire.WriteUInt32 2 (key_size m).

Definition AesCtrParams_MergeField (m : AesCtrParams) (f : Wire.RawField)
  : option AesCtrParams :=
  match f with
  | (1, Wire.RawVarint v) => Some {| iv_size := Wire.AsUInt32 v |}
  | _ => Some m
  end.

Definition MergeField (m : AesCtrKeyFormat) (f : Wire.RawField)
  : option AesCtrKeyFormat :=
  match f with
  | (1, Wire.RawBytes bs) =>
      p <-? MergeFromString AesCtrParams_MergeField bs
              (mutable AesCtrParams_new (params m)) ;;
      Some {| params := Some p; key_size := key_size m |}
  | (2, Wire.RawVarint v) =>
      Some {| params := params m; key_size := Wire.AsUInt32 v |}
  | _ => Some m
  end.

End aes_ctr_pb2.

Module hmac_pb2.
Import type_checkers.

(** Modelled from the spec: the mac of the CTR-HMAC parameter record of
    section 3, { hash_algorithm, key_size_bytes, tag_size_bytes }, as the
    message [HmacKeyFormat] declares it: [params] (field 1) holding [hash]
    (field 1) and [tag_size] (field 2), and [key_size] (field 2). *)
Record HmacParams : Type := { hash : Z; tag_size : Z }.

Record HmacKeyFormat : Type :=
  { params : option HmacParams; key_size : Z }.

Definition HmacParams_new : HmacParams := {| hash := 0; tag_size := 0 |}.

Definition HmacKeyFormat_new : HmacKeyFormat :=
  {| params := None; key_size := 0 |}.

Definition set_hash (v : Z) (m : HmacParams) : result HmacParams :=
  v' <- CheckInt32 v ;;
  Ok {| hash := v'; tag_size := tag_size m |}.

Definition set_tag_size (v : Z) (m : HmacParams) : result HmacParams :=
  v' <- CheckUInt32 v ;; Ok {| hash := hash m; tag_size := v' |}.

Definition with_params (set : HmacParams -> result HmacParams)
  (m : HmacKeyFormat) : result HmacKeyFormat :=
  p <- set (mutable HmacParams_new (params m)) ;;
  Ok {| params := Some p; key_size := key_size m |}.

Definition set_key_size (v : Z) (m : HmacKeyFormat) : result HmacKeyFormat :=
  v' <- CheckUInt32 v ;; Ok {| params := params m; key_size := v' |}.

Definition HmacParams_SerializeToString (m : HmacParams) : Wire.bytes :=
  Wire.WriteEnum 1 (hash m) ++ Wire.WriteUInt32 2 (tag_size m).

Definition SerializeToString (m : HmacKeyFormat) : Wire.bytes :=
  Wire.WriteMessage 1 (option_map HmacParams_SerializeToString (params m))
    ++ Wire.WriteUInt32 2 (key_size m).

(** Modelled from the spec: merging one field read from the wire into the
    hash parameters, part of the absent runtime.  The enum is open: the
    number read is kept in the field whether it is declared or not. *)
Definition HmacParams_MergeField (m : HmacParams) (f : Wire.RawField)
  : option HmacParams :=
  match f with
  | (1, Wire.RawVarint v) =>
      Some {| hash := Wire.AsInt32 v; tag_size := tag_size m |}
  | (2, Wire.RawVarint v) =>
      Some {| hash := hash m; tag_size := Wire.AsUInt32 v |}
  | _ => Some m
  end.

Definition MergeField (m : HmacKeyFormat) (f : Wire.RawField)
  : option HmacKeyFormat :=
  match f with
  | (1, Wire.RawBytes bs) =>
      p <-? MergeFromString HmacParams_MergeField bs
              (mutable HmacParams_new (params m)) ;;
      Some {| params := Some p; key_size := key_size m |}
  | (2, Wire.RawVarint v) =>
      Some {| params := params m; key_size := Wire.AsUInt32 v |}
  | _ => Some m
  end.

End hmac_pb2.

Module aes_ctr_hmac_aead_pb2.
Import type_checkers.

(** Modelled from the spec: the CTR-HMAC parameter record of section 3,
    { inner_cipher, mac }, as the message [AesCtrHmacAeadKeyFormat] declares
    it: [aes_ctr_key_format] (field 1) and [hmac_key_format] (field 2). *)
Record AesCtrHmacAeadKeyFormat : Type :=
  { aes_ctr_key_format : option aes_ctr_pb2.AesCtrKeyFormat;
    hmac_key_format : option hmac_pb2.HmacKeyFormat }.

Definition AesCtrHmacAeadKeyFormat_new : AesCtrHmacAeadKeyFormat :=
  {| aes_ctr_key_format := None; hmac_key_format := None |}.

Definition with_aes_ctr_key_format
  (set : aes_ctr_pb2.AesCtrKeyFormat -> result aes_ctr_pb2.AesCtrKeyFormat)
  (m : AesCtrHmacAeadKeyFormat) : result AesCtrHmacAeadKeyFormat :=
  c <- set (mutable aes_ctr_pb2.AesCtrKeyFormat_new (aes_ctr_key_format m)) ;;
  Ok {| aes_ctr_key_format := Some c; hmac_key_format := hmac_key_format m |}.

Definition with_hmac_key_format
  (set : hmac_pb2.HmacKeyFormat -> result hmac_pb2.HmacKeyFormat)
  (m : AesCtrHmacAeadKeyFormat) : result AesCtrHmacAeadKeyFormat :=
  h <- set (mutable hmac_pb2.HmacKeyFormat_new (hmac_key_format m)) ;;
  Ok {| aes_ctr_key_format := aes_ctr_key_format m;
        hmac_key_format := Some h |}.

Definition SerializeToString (m : AesCtrHmacAeadKeyFormat) : Wire.bytes :=
  Wire.WriteMessage 1
    (option_map aes_ctr_pb2.SerializeToString (aes_ctr_key_format m))
    ++ Wire.WriteMessage 2
         (option_map hmac_pb2.SerializeToString (hmac_key_format m)).

Definition MergeField (m : AesCtrHmacAeadKeyFormat) (f : Wire.RawField)
  : option AesCtrHmacAeadKeyFormat :=
  match f with
  | (1, Wire.RawBytes bs) =>
      c <-? MergeFromString aes_ctr_pb2.MergeField bs
              (mutable aes_ctr_pb2.AesCtrKeyFormat_new
                 (aes_ctr_key_format m)) ;;
      Some {| aes_ctr_key_format := Some c;
              hmac_key_format := hmac_key_format m |}
  | (2, Wire.RawBytes bs) =>
      h <-? MergeFromString hmac_pb2.MergeField bs
              (mutable hmac_pb2.HmacKeyFormat_new (hmac_key_format m)) ;;
      Some {| aes_ctr_key_format := aes_ctr_key_format m;
              hmac_key_format := Some h |}
  | _ => Some m
  end.

Definition ParseFromString (buffer : Wire.bytes)
  : option AesCtrHmacAeadKeyFormat :=
  MergeFromString MergeField buffer AesCtrHmacAeadKeyFormat_new.

End aes_ctr_hmac_aead_pb2.

Module tink_pb2.

(** Modelled from the spec: the tagging mode and the key template of
    section 3, "tagging_mode: enum {TINK, LEGACY, RAW, CRUNCHY}" and
    "{ type_identifier, serialized_parameters, tagging_mode }", as
    [tink_pb2] declares them. *)
Inductive OutputPrefixType : Type :=
| UNKNOWN_PREFIX
| TINK
| LEGACY
| RAW
| CRUNCHY.

Record KeyTemplate : Type :=
  { type_url : string;
    value : Wire.bytes;
    output_prefix_type : OutputPrefixType }.

(** [KeyTemplate()]: every field at its default. *)
Definition KeyTemplate_new : KeyTemplate :=
  {| type_url := EmptyString; value := []; output_prefix_type := UNKNOWN_PREFIX |}.

Definition set_value (v : Wire.bytes) (m : KeyTemplate) : KeyTemplate :=
  {| type_url := type_url m; value := v;
     output_prefix_type := output_prefix_type m |}.

Definition set_type_url (v : string) (m : KeyTemplate) : KeyTemplate :=
  {| type_url := v; value := value m;
     output_prefix_type := output_prefix_type m |}.

Definition set_output_prefix_type (v : OutputPrefixType) (m : KeyTemplate)
  : KeyTemplate :=
  {| type_url := type_url m; value := value m; output_prefix_type := v |}.

Definition apply_kwarg {A : Type} (set : A -> KeyTemplate -> KeyTemplate)
  (kwarg : option A) (m : KeyTemplate) : KeyTemplate :=
  match kwarg with
  | Some v => set v m
  | None => m
  end.

(** [KeyTemplate(type_url=..., value=..., output_prefix_type=...)]: the
    keyword arguments that are given are assigned, the others keep their
    default. *)
Definition KeyTemplate_init (type_url' : option string)
  (value' : option Wire.bytes) (output_prefix_type' : option OutputPrefixType)
  : KeyTemplate :=
  apply_kwarg set_output_prefix_type output_prefix_type'
    (apply_kwarg set_value value'
       (apply_kwarg set_type_url type_url' KeyTemplate_new)).

End tink_pb2.

(** ** The source: python/tink/aead/_aead_key_templates.py *)

Definition _AES_EAX_KEY_TYPE_URL : string :=
  "type.googleapis.com/google.crypto.tink.AesEaxKey".
Definition _AES_GCM_KEY_TYPE_URL : string :=
  "type.googleapis.com/google.crypto.tink.AesGcmKey".
Definition _AES_GCM_SIV_KEY_TYPE_URL : string :=
  "type.googleapis.com/google.crypto.tink.AesGcmSivKey".
Definition _AES_CTR_HMAC_AEAD_KEY_TYPE_URL : string :=
  "type.googleapis.com/google.crypto.tink.AesCtrHmacAeadKey".
Definition _XCHACHA20_POLY1305_KEY_TYPE_URL : string :=
  "type.googleapis.com/google.crypto.tink.XChaCha20Poly1305Key".

(** Creates an AES EAX KeyTemplate, and fills in its values. *)
Definition create_aes_eax_key_template (key_size iv_size : Z)
  : result tink_pb2.KeyTemplate :=
  let key_format := aes_eax_pb2.AesEaxKeyFormat_new in
  key_format <-
    aes_eax_pb2.with_params (aes_eax_pb2.set_iv_size iv_size) key_format ;;
  key_format <- aes_eax_pb2.set_key_size key_size key_format ;;
  let key_template := tink_pb2.KeyTemplate_new in
  let key_template :=
    tink_pb2.set_value (aes_eax_pb2.SerializeToString key_format)
      key_template in
  let key_template :=
    tink_pb2.set_type_url _AES_EAX_KEY_TYPE_URL key_template in
  let key_template :=
    tink_pb2.set_output_prefix_type tink_pb2.TINK key_template in
  Ok key_template.

(** Creates an AES GCM KeyTemplate, and fills in its values. *)
Definition create_aes_gcm_key_template (key_size : Z)
  : result tink_pb2.KeyTemplate :=
  let key_format := aes_gcm_pb2.AesGcmKeyFormat_new in
  key_format <- aes_gcm_pb2.set_key_size key_size key_format ;;
  let key_template := tink_pb2.KeyTemplate_new in
  let key_template :=
    tink_pb2.set_value (aes_gcm_pb2.SerializeToString key_format)
      key_template in
  let key_template :=
    tink_pb2.set_type_url _AES_GCM_KEY_TYPE_URL key_template in
  let key_template :=
    tink_pb2.set_output_prefix_type tink_pb2.TINK key_template in
  Ok key_template.

(** Creates an AES GCM SIV KeyTemplate, and fills in its values. *)
Definition create_aes_gcm_siv_key_template (key_size : Z)
  : result tink_pb2.KeyTemplate :=
  let key_format := aes_gcm_siv_pb2.AesGcmSivKeyFormat_new in
  key_format <- aes_gcm_siv_pb2.set_key_size key_size key_format ;;
  let key_template := tink_pb2.KeyTemplate_new in
  let key_template :=
    tink_pb2.set_value (aes_gcm_siv_pb2.SerializeToString key_format)
      key_template in
  let key_template :=
    tink_pb2.set_type_url _AES_GCM_SIV_KEY_TYPE_URL key_template in
  let key_template :=
    tink_pb2.set_output_prefix_type tink_pb2.TINK key_template in
  Ok key_template.

(** Creates an AES CTR HMAC AEAD KeyTemplate, and fills in its values. *)
Definition create_aes_ctr_hmac_aead_key_template
  (aes_key_size iv_size hmac_key_size tag_size hash_type : Z)
  : result tink_pb2.KeyTemplate :=
  let key_format := aes_ctr_hmac_aead_pb2.AesCtrHmacAeadKeyFormat_new in
  key_format <-
    aes_ctr_hmac_aead_pb2.with_aes_ctr_key_format
      (aes_ctr_pb2.with_params (aes_ctr_pb2.set_iv_size iv_size))
      key_format ;;
  key_format <-
    aes_ctr_hmac_aead_pb2.with_aes_ctr_key_format
      (aes_ctr_pb2.set_key_size aes_key_size) key_format ;;
  key_format <-
    aes_ctr_hmac_aead_pb2.with_hmac_key_format
      (hmac_pb2.with_params (hmac_pb2.set_hash hash_type)) key_format ;;
  key_format <-
    aes_ctr_hmac_aead_pb2.with_hmac_key_format
      (hmac_pb2.with_params (hmac_pb2.set_tag_size tag_size)) key_format ;;
  key_format <-
    aes_ctr_hmac_aead_pb2.with_hmac_key_format
      (hmac_pb2.set_key_size hmac_key_size) key_format ;;
  let key_template := tink_pb2.KeyTemplate_new in
  let key_template :=
    tink_pb2.set_value (aes_ctr_hmac_aead_pb2.SerializeToString key_format)
      key_template in
  let key_template :=
    tink_pb2.set_type_url _AES_CTR_HMAC_AEAD_KEY_TYPE_URL key_template in
  let key_template :=
    tink_pb2.set_output_prefix_type tink_pb2.TINK key_template in
  Ok key_template.

Definition AES128_EAX : result tink_pb2.KeyTemplate :=
  create_aes_eax_key_template 16 16.
Definition AES256_EAX : result tink_pb2.KeyTemplate :=
  create_aes_eax_key_template 32 16.
Definition AES128_GCM : result tink_pb2.KeyTemplate :=
  create_aes_gcm_key_template 16.
Definition AES256_GCM : result tink_pb2.KeyTemplate :=
  create_aes_gcm_key_template 32.
Definition AES128_GCM_SIV : result tink_pb2.KeyTemplate :=
  create_aes_gcm_siv_key_template 16.
Definition AES256_GCM_SIV : result tink_pb2.KeyTemplate :=
  create_aes_gcm_siv_key_template 32.
Definition AES128_CTR_HMAC_SHA256 : result tink_pb2.KeyTemplate :=
  create_aes_ctr_hmac_aead_key_template 16 16 32 16 common_pb2.SHA256.
Definition AES256_CTR_HMAC_SHA256 : result tink_pb2.KeyTemplate :=
  create_aes_ctr_hmac_aead_key_template 32 16 32 32 common_pb2.SHA256.
Definition XCHACHA20_POLY1305 : result tink_pb2.KeyTemplate :=
  Ok (tink_pb2.KeyTemplate_init (Some _XCHACHA20_POLY1305_KEY_TYPE_URL) None
        (Some tink_pb2.TINK)).

(** The names the module binds at import, in the order of the source. *)
Definition catalog : list (string * result tink_pb2.KeyTemplate) :=
  [ ("AES128_EAX"%string, AES128_EAX);
    ("AES256_EAX"%string, AES256_EAX);
    ("AES128_GCM"%string, AES128_GCM);
    ("AES256_GCM"%string, AES256_GCM);
    ("AES128_GCM_SIV"%string, AES128_GCM_SIV);
    ("AES256_GCM_SIV"%string, AES256_GCM_SIV);
    ("AES128_CTR_HMAC_SHA256"%string, AES128_CTR_HMAC_SHA256);
    ("AES256_CTR_HMAC_SHA256"%string, AES256_CTR_HMAC_SHA256);
    ("XCHACHA20_POLY1305"%string, XCHACHA20_POLY1305) ].

(** ** The specification's encoder and assembler

    These definitions follow the words of the specification (sections 3,
    4.1, 4.2 and 6), to be compared with the source functions above. *)

Module Spec.

(** Section 3: the algorithm variant, a closed tagged union, each tag
    carrying its own parameter-record shape. *)
Inductive ParameterRecord : Type :=
| EAX (r : aes_eax_pb2.AesEaxKeyFormat)
| GCM (r : aes_gcm_pb2.AesGcmKeyFormat)
| GCM_SIV (r : aes_gcm_siv_pb2.AesGcmSivKeyFormat)
| CTR_HMAC (r : aes_ctr_hmac_aead_pb2.AesCtrHmacAeadKeyFormat)
| XCHACHA20_POLY1305.

(** Section 6: the five type identifiers. *)
Definition type_identifiers : list string :=
  [ "type.googleapis.com/google.crypto.tink.AesEaxKey"%string;
    "type.googleapis.com/google.crypto.tink.AesGcmKey"%string;
    "type.googleapis.com/google.crypto.tink.AesGcmSivKey"%string;
    "type.googleapis.com/google.crypto.tink.AesCtrHmacAeadKey"%string;
    "type.googleapis.com/google.crypto.tink.XChaCha20Poly1305Key"%string ].

Definition type_identifier (r : ParameterRecord) : string :=
  match r with
  | EAX _ => "type.googleapis.com/google.crypto.tink.AesEaxKey"
  | GCM _ => "type.googleapis.com/google.crypto.tink.AesGcmKey"
  | GCM_SIV _ => "type.googleapis.com/google.crypto.tink.AesGcmSivKey"
  | CTR_HMAC _ => "type.googleapis.com/google.crypto.tink.AesCtrHmacAeadKey"
  | XCHACHA20_POLY1305 =>
      "type.googleapis.com/google.crypto.tink.XChaCha20Poly1305Key"
  end.

(** The records of section 3, built from the plain parameters. *)
Definition eax_record (key_size iv_size : Z) : ParameterRecord :=
  EAX {| aes_eax_pb2.params := Some {| aes_eax_pb2.iv_size := iv_size |};
         aes_eax_pb2.key_size := key_size |}.

Definition gcm_record (key_size : Z) : ParameterRecord :=
  GCM {| aes_gcm_pb2.key_size := key_size |}.

Definition gcm_siv_record (key_size : Z) : ParameterRecord :=
  GCM_SIV {| aes_gcm_siv_pb2.key_size := key_size |}.

Definition ctr_hmac_record
  (aes_key_size iv_size hmac_key_size tag_size hash : Z) : ParameterRecord :=
  CTR_HMAC
    {| aes_ctr_hmac_aead_pb2.aes_ctr_key_format :=
         Some {| aes_ctr_pb2.params :=
                   Some {| aes_ctr_pb2.iv_size := iv_size |};
                 aes_ctr_pb2.key_size := aes_key_size |};
       aes_ctr_hmac_aead_pb2.hmac_key_format :=
         Some {| hmac_pb2.params :=
                   Some {| hmac_pb2.hash := hash;
                           hmac_pb2.tag_size := tag_size |};
                 hmac_pb2.key_size := hmac_key_size |} |}.

(** What the serialization can represent, in the words of section 4.1:
    sizes that fit their unsigned 32-bit field, a hash of the declared
    enum. *)
Definition is_uint32 (v : Z) : bool := (0 <=? v) && (v <=? Wire.UINT32_MAX).

Definition is_hash (v : Z) : bool :=
  existsb (Z.eqb v) common_pb2.HashType_values.

Definition opt_all {A : Type} (p : A -> bool) (o : option A) : bool :=
  match o with
  | Some a => p a
  | None => true
  end.

Definition eax_params_ok (p : aes_eax_pb2.AesEaxParams) : bool :=
  is_uint32 (aes_eax_pb2.iv_size p).

Definition eax_key_format_ok (m : aes_eax_pb2.AesEaxKeyFormat) : bool :=
  opt_all eax_params_ok (aes_eax_pb2.params m)
  && is_uint32 (aes_eax_pb2.key_size m).

Definition ctr_params_ok (p : aes_ctr_pb2.AesCtrParams) : bool :=
  is_uint32 (aes_ctr_pb2.iv_size p).

Definition ctr_key_format_ok (m : aes_ctr_pb2.AesCtrKeyFormat) : bool :=
  opt_all ctr_params_ok (aes_ctr_pb2.params m)
  && is_uint32 (aes_ctr_pb2.key_size m).

Definition hmac_params_ok (p : hmac_pb2.HmacParams) : bool :=
  is_hash (hmac_pb2.hash p) && is_uint32 (hmac_pb2.tag_size p).

Definition hmac_key_format_ok (m : hmac_pb2.HmacKeyFormat) : bool :=
  opt_all hmac_params_ok (hmac_pb2.params m)
  && is_uint32 (hmac_pb2.key_size m).

Definition ctr_hmac_key_format_ok
  (m : aes_ctr_hmac_aead_pb2.AesCtrHmacAeadKeyFormat) : bool :=
  opt_all ctr_key_format_ok (aes_ctr_hmac_aead_pb2.aes_ctr_key_format m)
  && opt_all hmac_key_format_ok (aes_ctr_hmac_aead_pb2.hmac_key_format m).

Definition representable (r : ParameterRecord) : bool :=
  match r with
  | EAX m => eax_key_format_ok m
  | GCM m => is_uint32 (aes_gcm_pb2.key_size m)
  | GCM_SIV m => is_uint32 (aes_gcm_siv_pb2.key_size m)
  | CTR_HMAC m => ctr_hmac_key_format_ok m
  | XCHACHA20_POLY1305 => true
  end.

(** Section 4.1: the canonical serialization of a parameter record; empty
    for the parameterless algorithm. *)
Definition serialize (r : ParameterRecord) : Wire.bytes :=
  match r with
  | EAX m => aes_eax_pb2.SerializeToString m
  | GCM m => aes_gcm_pb2.SerializeToString m
  | GCM_SIV m => aes_gcm_siv_pb2.SerializeToString m
  | CTR_HMAC m => aes_ctr_hmac_aead_pb2.SerializeToString m
  | XCHACHA20_POLY1305 => []
  end.

(** Section 4.1: the encoders fail when a value cannot be represented. *)
Definition encode (r : ParameterRecord) : option Wire.bytes :=
  if representable r then Some (serialize r) else None.

Definition encode_eax (key_size iv_size : Z) : option Wire.bytes :=
  encode (eax_record key_size iv_size).

Definition encode_gcm (key_size : Z) : option Wire.bytes :=
  encode (gcm_record key_size).

Definition encode_gcm_siv (key_size : Z) : option Wire.bytes :=
  encode (gcm_siv_record key_size).

Definition encode_ctr_hmac
  (aes_key_size iv_size hmac_key_size tag_size hash : Z)
  : option Wire.bytes :=
  encode (ctr_hmac_record aes_key_size iv_size hmac_key_size tag_size hash).

(** Section 4.2: pure construction of the key template. *)
Definition assemble (type_identifier : string)
  (serialized_parameters : Wire.bytes)
  (tagging_mode : tink_pb2.OutputPrefixType) : tink_pb2.KeyTemplate :=
  {| tink_pb2.type_url := type_identifier;
     tink_pb2.value := serialized_parameters;
     tink_pb2.output_prefix_type := tagging_mode |}.

(** Section 2: the encoder produces bytes, the assembler packages them with
    the identifier of the variant and the tagging mode, always TINK. *)
Definition template (r : ParameterRecord) : option tink_pb2.KeyTemplate :=
  option_map (fun bs => assemble (type_identifier r) bs tink_pb2.TINK)
    (encode r).

(** Modelled from the spec: the consumer of section 6 "looks up an
    implementation by type_identifier, deserializes serialized_parameters
    into that implementation's expected Parameter Record shape"; that
    consumer is not part of the source file. *)
Definition deserialize (type_identifier : string) (buffer : Wire.bytes)
  : option ParameterRecord :=
  if String.eqb type_identifier _AES_EAX_KEY_TYPE_URL then
    option_map EAX (aes_eax_pb2.ParseFromString buffer)
  else if String.eqb type_identifier _AES_GCM_KEY_TYPE_URL then
    option_map GCM (aes_gcm_pb2.ParseFromString buffer)
  else if String.eqb type_identifier _AES_GCM_SIV_KEY_TYPE_URL then
    option_map GCM_SIV (aes_gcm_siv_pb2.ParseFromString buffer)
  else if String.eqb type_identifier _AES_CTR_HMAC_AEAD_KEY_TYPE_URL then
    option_map CTR_HMAC (aes_ctr_hmac_aead_pb2.ParseFromString buffer)
  else if String.eqb type_identifier _XCHACHA20_POLY1305_KEY_TYPE_URL then
    option_map (fun _ => XCHACHA20_POLY1305) (Wire.ParseFields buffer)
  else None.

End Spec.

(** ** What the field setters accept

    A size is accepted when it fits its unsigned 32-bit field, a hash when
    it fits the signed 32-bit enum field; a record is accepted when all
    the fields of the messages that are present are. *)

Definition is_int32 (v : Z) : bool :=
  (Wire.INT32_MIN <=? v) && (v <=? Wire.INT32_MAX).

Definition hmac_params_accepted (p : hmac_pb2.HmacParams) : bool :=
  is_int32 (hmac_pb2.hash p) && Spec.is_uint32 (hmac_pb2.tag_size p).

Definition hmac_key_format_accepted (m : hmac_pb2.HmacKeyFormat) : bool :=
  Spec.opt_all hmac_params_accepted (hmac_pb2.params m)
  && Spec.is_uint32 (hmac_pb2.key_size m).

Definition ctr_hmac_key_format_accepted
  (m : aes_ctr_hmac_aead_pb2.AesCtrHmacAeadKeyFormat) : bool :=
  Spec.opt_all Spec.ctr_key_format_ok
    (aes_ctr_hmac_aead_pb2.aes_ctr_key_format m)
  && Spec.opt_all hmac_key_format_accepted
       (aes_ctr_hmac_aead_pb2.hmac_key_format m).

Definition accepted (r : Spec.ParameterRecord) : bool :=
  match r with
  | Spec.EAX m => Spec.eax_key_format_ok m
  | Spec.GCM m => Spec.is_uint32 (aes_gcm_pb2.key_size m)
  | Spec.GCM_SIV m => Spec.is_uint32 (aes_gcm_siv_pb2.key_size m)
  | Spec.CTR_HMAC m => ctr_hmac_key_format_accepted m
  | Spec.XCHACHA20_POLY1305 => true
  end.

(** A template is produced by the module when one of its four functions
    returns it or when it is the parameterless catalog constant. *)
Inductive produced : tink_pb2.KeyTemplate -> Prop :=
| produced_eax key_size iv_size t :
    create_aes_eax_key_template key_size iv_size = Ok t -> produced t
| produced_gcm key_size t :
    create_aes_gcm_key_template key_size = Ok t -> produced t
| produced_gcm_siv key_size t :
    create_aes_gcm_siv_key_template key_size = Ok t -> produced t
| produced_ctr_hmac aes_key_size iv_size hmac_key_size tag_size hash_type t :
    create_aes_ctr_hmac_aead_key_template aes_key_size iv_size hmac_key_size
      tag_size hash_type = Ok t ->
    produced t
| produced_xchacha20_poly1305 t :
    XCHACHA20_POLY1305 = Ok t -> produced t.

(** * Facts *)

(** Side conditions of the reading lemmas: field numbers are small, and
    so are the serialized sub-messages. *)
Ltac field_number_ok := change (2 ^ 29) with 536870912; lia.

Ltac small_length H :=
  change (2 ^ 64) with 18446744073709551616;
  let bs := fresh "bs" in
  let E := fresh "E" in
  intros bs E; injection E as <-; pose proof H; lia.

Module WireFacts.
Import Wire.

Lemma testbit_above (a n i : Z) :
  0 <= a < 2 ^ n -> n <= i -> Z.testbit a i = false.
Proof.
  intros Ha Hi.
  destruct (Z.eq_dec a 0) as [-> | Hnz].
  - apply Z.bits_0.
  - apply Z.bits_above_log2; [lia |].
    assert (Z.log2 a < n) by (apply Z.log2_lt_pow2; lia). lia.
Qed.

Lemma land_shiftl_disjoint (a b n : Z) :
  0 <= n -> 0 <= a < 2 ^ n -> Z.land a (Z.shiftl b n) = 0.
Proof.
  intros Hn Ha.
  apply Z.bits_inj'. intros i Hi.
  rewrite Z.land_spec, Z.bits_0.
  destruct (Z.lt_ge_cases i n) as [Hlt | Hge].
  - rewrite Z.shiftl_spec_low by assumption. apply andb_false_r.
  - rewrite (testbit_above a n i) by assumption. reflexivity.
Qed.

Lemma lor_shiftl_add (a b n : Z) :
  0 <= n -> 0 <= a < 2 ^ n ->
  Z.lor a (Z.shiftl b n) = a + b * 2 ^ n.
Proof.
  intros Hn Ha.
  pose proof (land_shiftl_disjoint a b n Hn Ha) as Hdisj.
  rewrite <- Z.lxor_lor by assumption.
  rewrite <- Z.add_nocarry_lxor by assumption.
  rewrite Z.shiftl_mul_pow2 by assumption. reflexivity.
Qed.

Lemma land_127 (x : Z) : Z.land x 127 = x mod 128.
Proof. change 127 with (Z.ones 7). rewrite Z.land_ones by lia. reflexivity. Qed.

Lemma land_128_low (bits : Z) : 0 <= bits < 128 -> Z.land bits 128 = 0.
Proof.
  intros Hb. change 128 with (Z.shiftl 1 7).
  apply land_shiftl_disjoint; [lia | exact Hb].
Qed.

Lemma land_127_low (bits : Z) : 0 <= bits < 128 -> Z.land bits 127 = bits.
Proof. intros Hb. rewrite land_127. apply Z.mod_small. exact Hb. Qed.

Lemma continuation_byte_land_128 (bits : Z) :
  0 <= bits < 128 -> Z.land (Z.lor 128 bits) 128 = 128.
Proof.
  intros Hb. rewrite Z.land_lor_distr_l, (land_128_low bits) by assumption.
  reflexivity.
Qed.

Lemma continuation_byte_land_127 (bits : Z) :
  0 <= bits < 128 -> Z.land (Z.lor 128 bits) 127 = bits.
Proof.
  intros Hb. rewrite Z.land_lor_distr_l, (land_127_low bits) by assumption.
  reflexivity.
Qed.

Lemma land_UINT64_MAX (x : Z) : Z.land x UINT64_MAX = x mod 2 ^ 64.
Proof.
  change UINT64_MAX with (Z.ones 64). rewrite Z.land_ones by lia. reflexivity.
Qed.

Lemma land_UINT32_MAX (x : Z) : Z.land x UINT32_MAX = x mod 2 ^ 32.
Proof.
  change UINT32_MAX with (Z.ones 32). rewrite Z.land_ones by lia. reflexivity.
Qed.

Lemma shiftr_7 (x : Z) : Z.shiftr x 7 = x / 128.
Proof. rewrite Z.shiftr_div_pow2 by lia. reflexivity. Qed.

(** Decoding what the encoding loop wrote, from any position of the
    decoding loop. *)
Lemma DecodeVarint_loop_EncodeVarint_loop (mask : Z) (fuel : nat) :
  forall bits value result shift rest,
    0 <= bits < 128 ->
    0 <= value < 2 ^ Z.of_nat fuel ->
    0 <= shift ->
    0 <= result < 2 ^ shift ->
    result + (bits + 128 * value) * 2 ^ shift < 2 ^ 64 ->
    DecodeVarint_loop mask (EncodeVarint_loop fuel bits value ++ rest)
      result shift
    = Some (Z.land (result + (bits + 128 * value) * 2 ^ shift) mask, rest).
Proof.
  induction fuel as [| fuel IH]; intros bits value result shift rest
    Hbits Hvalue Hshift Hresult Hbound.
  - assert (value = 0) by (simpl in Hvalue; lia). subst value.
    simpl. rewrite land_128_low, land_127_low by assumption. simpl.
    rewrite lor_shiftl_add by assumption.
    repeat f_equal. lia.
  - cbn [EncodeVarint_loop].
    destruct (Z.eqb_spec value 0) as [-> | Hnz].
    + simpl. rewrite land_128_low, land_127_low by assumption. simpl.
      rewrite lor_shiftl_add by assumption.
      repeat f_equal. lia.
    + cbn [app DecodeVarint_loop].
      rewrite continuation_byte_land_128, continuation_byte_land_127
        by assumption.
      cbn [Z.eqb].
      rewrite lor_shiftl_add by assumption.
      assert (Hpow : 2 ^ (shift + 7) = 128 * 2 ^ shift).
      { rewrite Z.pow_add_r by lia. lia. }
      assert (Hs : 0 < 2 ^ shift) by (apply Z.pow_pos_nonneg; lia).
      assert (Hlt : shift + 7 < 64).
      { apply (Z.pow_lt_mono_r_iff 2); [lia | lia |]. nia. }
      destruct (Z.leb_spec 64 (shift + 7)) as [Hge | _]; [lia |].
      rewrite land_127, shiftr_7.
      pose proof (Z.div_mod value 128 ltac:(lia)) as Hdm.
      pose proof (Z.mod_pos_bound value 128 ltac:(lia)) as Hm.
      rewrite IH.
      * rewrite Hpow.
        replace (value mod 128 + 128 * (value / 128)) with value by lia.
        do 3 f_equal. ring.
      * exact Hm.
      * split; [apply Z.div_pos; lia |].
        apply Z.div_lt_upper_bound; [lia |].
        rewrite Nat2Z.inj_succ, Z.pow_succ_r in Hvalue by lia. lia.
      * lia.
      * rewrite Hpow. nia.
      * rewrite Hpow. nia.
Qed.


(** The encoding loop always ends within its fuel: any two amounts of
    fuel that cover the bits of the value give the same bytes. *)
Lemma EncodeVarint_loop_fuel (fuel1 : nat) :
  forall fuel2 bits value,
    0 <= value < 2 ^ Z.of_nat fuel1 -> 0 <= value < 2 ^ Z.of_nat fuel2 ->
    EncodeVarint_loop fuel1 bits value = EncodeVarint_loop fuel2 bits value.
Proof.
  induction fuel1 as [| fuel1 IH]; intros fuel2 bits value H1 H2.
  - assert (value = 0) by (change (2 ^ Z.of_nat 0) with 1 in H1; lia).
    subst value. destruct fuel2; reflexivity.
  - destruct fuel2 as [| fuel2].
    + assert (value = 0) by (change (2 ^ Z.of_nat 0) with 1 in H2; lia).
      subst value. reflexivity.
    + cbn [EncodeVarint_loop]. destruct (value =? 0); [reflexivity |].
      f_equal. rewrite shiftr_7.
      rewrite Nat2Z.inj_succ, Z.pow_succ_r in H1, H2 by lia.
      apply IH; (split; [apply Z.div_pos; lia |]);
        apply Z.div_lt_upper_bound; lia.
Qed.

Lemma EncodeVarint_loop_cons (fuel : nat) (bits value : Z) :
  exists b bs, EncodeVarint_loop fuel bits value = b :: bs.
Proof.
  destruct fuel; cbn [EncodeVarint_loop]; destruct (value =? 0); eauto.
Qed.

Lemma EncodeVarint_nonempty (value : Z) : EncodeVarint value <> [].
Proof.
  unfold EncodeVarint.
  destruct (EncodeVarint_loop_cons (Z.to_nat (Z.log2 value))
              (Z.land value 127) (Z.shiftr value 7)) as (b & bs & ->).
  discriminate.
Qed.

Lemma EncodeVarint_loop_bytes (fuel : nat) :
  forall bits value,
    0 <= bits < 128 -> Forall is_byte (EncodeVarint_loop fuel bits value).
Proof.
  induction fuel as [| fuel IH]; intros bits value Hb;
    cbn [EncodeVarint_loop]; destruct (value =? 0);
    try (constructor; [unfold is_byte; lia | constructor]).
  constructor.
  - unfold is_byte.
    replace (Z.lor 128 bits) with (bits + 1 * 2 ^ 7);
      [change (2 ^ 7) with 128; lia |].
    symmetry. rewrite Z.lor_comm. change 128 with (Z.shiftl 1 7).
    apply lor_shiftl_add; [lia | change (2 ^ 7) with 128; lia].
  - apply IH. rewrite land_127. apply Z.mod_pos_bound. lia.
Qed.

(** What the encoder writes is a byte string. *)
Lemma EncodeVarint_bytes (value : Z) : Forall is_byte (EncodeVarint value).
Proof.
  unfold EncodeVarint. apply EncodeVarint_loop_bytes.
  rewrite land_127. apply Z.mod_pos_bound. lia.
Qed.

Lemma div_128_lt_pow2_log2 (value : Z) :
  0 <= value -> 0 <= value / 128 < 2 ^ Z.log2 value.
Proof.
  intros Hv. split; [apply Z.div_pos; lia |].
  destruct (Z.eq_dec value 0) as [-> | Hnz]; [reflexivity |].
  destruct (Z.log2_spec value) as [_ Hhi]; [lia |].
  rewrite Z.pow_succ_r in Hhi by apply Z.log2_nonneg.
  apply Z.div_lt_upper_bound; lia.
Qed.

(** Reading back a varint gives the number that was written. *)
Lemma DecodeVarint_EncodeVarint (value : Z) (rest : bytes) :
  0 <= value < 2 ^ 64 ->
  DecodeVarint (EncodeVarint value ++ rest) = Some (value, rest).
Proof.
  intros Hv. unfold DecodeVarint, EncodeVarint.
  pose proof (Z.div_mod value 128 ltac:(lia)) as Hdm.
  pose proof (Z.mod_pos_bound value 128 ltac:(lia)) as Hm.
  rewrite land_127, shiftr_7.
  rewrite DecodeVarint_loop_EncodeVarint_loop.
  - rewrite land_UINT64_MAX.
    replace (0 + (value mod 128 + 128 * (value / 128)) * 2 ^ 0)
      with value by lia.
    rewrite Z.mod_small by exact Hv. reflexivity.
  - exact Hm.
  - rewrite Z2Nat.id by apply Z.log2_nonneg.
    apply div_128_lt_pow2_log2. lia.
  - lia.
  - change (2 ^ 0) with 1. lia.
  - change (2 ^ 0) with 1. lia.
Qed.

(** Reading a varint consumes at least one byte. *)
Lemma DecodeVarint_loop_shorter (mask : Z) (buffer : bytes) :
  forall result shift v rest,
    DecodeVarint_loop mask buffer result shift = Some (v, rest) ->
    (length rest < length buffer)%nat.
Proof.
  induction buffer as [| b buffer IH]; intros result shift v rest H.
  - discriminate.
  - cbn [DecodeVarint_loop] in H.
    destruct (Z.land b 128 =? 0).
    + injection H as _ <-. simpl. lia.
    + destruct (64 <=? shift + 7); [discriminate |].
      apply IH in H. simpl. lia.
Qed.

Lemma DecodeVarint_shorter (buffer : bytes) (v : Z) (rest : bytes) :
  DecodeVarint buffer = Some (v, rest) -> (length rest < length buffer)%nat.
Proof. apply DecodeVarint_loop_shorter. Qed.

Lemma take_shorter (n : Z) (buffer payload rest : bytes) :
  take n buffer = Some (payload, rest) -> (length rest <= length buffer)%nat.
Proof.
  unfold take. destruct (Z.of_nat (length buffer) <? n); [discriminate |].
  intros H. injection H as _ <-. rewrite length_skipn. lia.
Qed.

Lemma take_app (payload rest : bytes) :
  take (Z.of_nat (length payload)) (payload ++ rest) = Some (payload, rest).
Proof.
  unfold take. rewrite length_app, Nat2Z.inj_add, Nat2Z.id.
  destruct (Z.ltb_spec (Z.of_nat (length payload) + Z.of_nat (length rest))
              (Z.of_nat (length payload))) as [Hlt | _]; [lia |].
  rewrite firstn_app, skipn_app, Nat.sub_diag, firstn_all, skipn_all.
  simpl. rewrite app_nil_r. reflexivity.
Qed.

(** The length of the buffer is enough fuel: more never changes the
    fields that are read. *)
Lemma ReadFields_fuel (fuel1 : nat) :
  forall fuel2 buffer,
    (length buffer <= fuel1)%nat -> (length buffer <= fuel2)%nat ->
    ReadFields fuel1 buffer = ReadFields fuel2 buffer.
Proof.
  induction fuel1 as [| fuel1 IH]; intros fuel2 buffer H1 H2.
  - destruct buffer; [destruct fuel2; reflexivity | simpl in H1; lia].
  - destruct buffer as [| b buffer]; [destruct fuel2; reflexivity |].
    destruct fuel2 as [| fuel2]; [simpl in H2; lia |].
    cbn [ReadFields].
    destruct (DecodeVarint (b :: buffer)) as [[tag rest] |] eqn:Htag;
      [| reflexivity].
    apply DecodeVarint_shorter in Htag.
    cbn [obind]. destruct (UnpackTag tag) as [field_number wire_type].
    destruct (field_number =? 0); [reflexivity |].
    destruct (wire_type =? WIRETYPE_VARINT).
    { destruct (DecodeVarint rest) as [[v rest'] |] eqn:Hv; [| reflexivity].
      apply DecodeVarint_shorter in Hv. cbn [obind].
      rewrite (IH fuel2 rest') by lia. reflexivity. }
    destruct (wire_type =? WIRETYPE_FIXED64).
    { destruct (take 8 rest) as [[payload rest'] |] eqn:Hp; [| reflexivity].
      apply take_shorter in Hp. cbn [obind].
      rewrite (IH fuel2 rest') by lia. reflexivity. }
    destruct (wire_type =? WIRETYPE_LENGTH_DELIMITED).
    { destruct (DecodeVarint rest) as [[n rest'] |] eqn:Hn; [| reflexivity].
      apply DecodeVarint_shorter in Hn. cbn [obind].
      destruct (take n rest') as [[payload rest''] |] eqn:Hp;
        [| reflexivity].
      apply take_shorter in Hp. cbn [obind].
      rewrite (IH fuel2 rest'') by lia. reflexivity. }
    destruct (wire_type =? WIRETYPE_FIXED32); [| reflexivity].
    destruct (take 4 rest) as [[payload rest'] |] eqn:Hp; [| reflexivity].
    apply take_shorter in Hp. cbn [obind].
    rewrite (IH fuel2 rest') by lia. reflexivity.
Qed.

Lemma UnpackTag_PackTag (field_number wire_type : Z) :
  0 <= wire_type < 8 ->
  UnpackTag (PackTag field_number wire_type) = (field_number, wire_type).
Proof.
  intros Hw. unfold UnpackTag, PackTag, TAG_TYPE_BITS, TAG_TYPE_MASK.
  rewrite Z.lor_comm, lor_shiftl_add by (simpl; lia).
  change 7 with (Z.ones 3). rewrite Z.land_ones, Z.shiftr_div_pow2 by lia.
  change (2 ^ 3) with 8.
  f_equal.
  - rewrite Z.div_add by lia. rewrite Z.div_small by lia. reflexivity.
  - rewrite Z.mod_add by lia. apply Z.mod_small. lia.
Qed.

Lemma PackTag_range (field_number wire_type : Z) :
  0 <= field_number < 2 ^ 29 -> 0 <= wire_type < 8 ->
  0 <= PackTag field_number wire_type < 2 ^ 64.
Proof.
  intros Hf Hw. unfold PackTag, TAG_TYPE_BITS.
  rewrite Z.lor_comm, lor_shiftl_add by (simpl; lia).
  change (2 ^ 3) with 8. change (2 ^ 29) with 536870912 in Hf.
  change (2 ^ 64) with 18446744073709551616. lia.
Qed.

Lemma ParseFields_nil : ParseFields [] = Some [].
Proof. reflexivity. Qed.

(** Reading a buffer that starts with a varint field. *)
Lemma ParseFields_varint (field_number v : Z) (rest : bytes) :
  1 <= field_number < 2 ^ 29 -> 0 <= v < 2 ^ 64 ->
  ParseFields (TagBytes field_number WIRETYPE_VARINT ++ EncodeVarint v ++ rest)
  = (fs <-? ParseFields rest ;; Some ((field_number, RawVarint v) :: fs)).
Proof.
  intros Hf Hv. unfold ParseFields, TagBytes.
  pose proof (EncodeVarint_nonempty (PackTag field_number WIRETYPE_VARINT))
    as Hne.
  pose proof (DecodeVarint_EncodeVarint (PackTag field_number WIRETYPE_VARINT)
                (EncodeVarint v ++ rest)
                (PackTag_range field_number WIRETYPE_VARINT ltac:(lia)
                   ltac:(unfold WIRETYPE_VARINT; lia)))
    as Htag.
  pose proof (DecodeVarint_EncodeVarint v rest Hv) as Hval.
  pose proof (DecodeVarint_shorter _ _ _ Htag) as Hs1.
  pose proof (DecodeVarint_shorter _ _ _ Hval) as Hs2.
  destruct (EncodeVarint (PackTag field_number WIRETYPE_VARINT)
              ++ EncodeVarint v ++ rest) as [| b buffer] eqn:Hbuf.
  - destruct (EncodeVarint (PackTag field_number WIRETYPE_VARINT));
      [contradiction | discriminate].
  - cbn [length ReadFields]. rewrite Htag. cbn [obind].
    rewrite UnpackTag_PackTag by (unfold WIRETYPE_VARINT; lia).
    destruct (Z.eqb_spec field_number 0) as [-> | _]; [lia |].
    cbn [WIRETYPE_VARINT Z.eqb]. rewrite Hval. cbn [obind].
    rewrite (ReadFields_fuel _ (length rest) rest)
      by (simpl in Hs1; lia).
    reflexivity.
Qed.

(** Reading a buffer that starts with a length-delimited field. *)
Lemma ParseFields_bytes (field_number : Z) (payload rest : bytes) :
  1 <= field_number < 2 ^ 29 -> Z.of_nat (length payload) < 2 ^ 64 ->
  ParseFields (TagBytes field_number WIRETYPE_LENGTH_DELIMITED
                 ++ EncodeVarint (Z.of_nat (length payload))
                 ++ payload ++ rest)
  = (fs <-? ParseFields rest ;; Some ((field_number, RawBytes payload) :: fs)).
Proof.
  intros Hf Hlen. unfold ParseFields, TagBytes.
  set (tag := PackTag field_number WIRETYPE_LENGTH_DELIMITED).
  pose proof (EncodeVarint_nonempty tag) as Hne.
  pose proof (DecodeVarint_EncodeVarint tag
                (EncodeVarint (Z.of_nat (length payload)) ++ payload ++ rest)
                (PackTag_range field_number WIRETYPE_LENGTH_DELIMITED
                   ltac:(lia) ltac:(unfold WIRETYPE_LENGTH_DELIMITED; lia)))
    as Htag.
  pose proof (DecodeVarint_EncodeVarint (Z.of_nat (length payload))
                (payload ++ rest) ltac:(lia)) as Hval.
  pose proof (DecodeVarint_shorter _ _ _ Htag) as Hs1.
  pose proof (DecodeVarint_shorter _ _ _ Hval) as Hs2.
  destruct (EncodeVarint tag
              ++ EncodeVarint (Z.of_nat (length payload)) ++ payload ++ rest)
    as [| b buffer] eqn:Hbuf.
  - destruct (EncodeVarint tag); [contradiction | discriminate].
  - cbn [length ReadFields]. rewrite Htag. cbn [obind].
    unfold tag.
    rewrite UnpackTag_PackTag by (unfold WIRETYPE_LENGTH_DELIMITED; lia).
    destruct (Z.eqb_spec field_number 0) as [-> | _]; [lia |].
    cbn [WIRETYPE_LENGTH_DELIMITED WIRETYPE_VARINT WIRETYPE_FIXED64 Z.eqb
           Pos.eqb].
    rewrite Hval. cbn [obind]. rewrite take_app. cbn [obind].
    rewrite (ReadFields_fuel _ (length rest) rest).
    + reflexivity.
    + rewrite length_app in Hs2. simpl in Hs1. lia.
    + lia.
Qed.

End WireFacts.

Module MessageFacts.
Import Wire WireFacts type_checkers.

Lemma EncodeVarint_loop_length (k : nat) :
  forall fuel bits value,
    0 <= value < 2 ^ (7 * Z.of_nat k) ->
    (length (EncodeVarint_loop fuel bits value) <= S k)%nat.
Proof.
  induction k as [| k IH]; intros fuel bits value Hv.
  - assert (value = 0) by (change (2 ^ (7 * Z.of_nat 0)) with 1 in Hv; lia).
    subst value. destruct fuel; simpl; lia.
  - destruct fuel as [| fuel]; cbn [EncodeVarint_loop];
      destruct (value =? 0); simpl; try lia.
    apply le_n_S. apply IH. rewrite shiftr_7.
    split; [apply Z.div_pos; lia |].
    apply Z.div_lt_upper_bound; [lia |].
    replace (7 * Z.of_nat (S k)) with (7 + 7 * Z.of_nat k) in Hv by lia.
    rewrite Z.pow_add_r in Hv by lia. change (2 ^ 7) with 128 in Hv. lia.
Qed.

(** A 64-bit varint takes at most ten bytes. *)
Lemma EncodeVarint_length (value : Z) :
  0 <= value < 2 ^ 64 -> (length (EncodeVarint value) <= 10)%nat.
Proof.
  intros Hv. unfold EncodeVarint.
  apply (EncodeVarint_loop_length 9). rewrite shiftr_7.
  split; [apply Z.div_pos; lia |].
  apply Z.div_lt_upper_bound; [lia |].
  change (2 ^ (7 * Z.of_nat 9)) with 9223372036854775808.
  change (2 ^ 64) with 18446744073709551616 in Hv. lia.
Qed.

Lemma is_uint32_range (v : Z) :
  Spec.is_uint32 v = true <-> 0 <= v <= UINT32_MAX.
Proof. unfold Spec.is_uint32. rewrite andb_true_iff, !Z.leb_le. tauto. Qed.

Lemma is_uint32_lt (v : Z) : Spec.is_uint32 v = true -> 0 <= v < 2 ^ 64.
Proof.
  rewrite is_uint32_range. unfold UINT32_MAX.
  change (2 ^ 64) with 18446744073709551616. lia.
Qed.

Lemma is_hash_range (v : Z) : Spec.is_hash v = true <-> 0 <= v <= 4.
Proof.
  unfold Spec.is_hash, common_pb2.HashType_values, common_pb2.UNKNOWN_HASH,
    common_pb2.SHA1, common_pb2.SHA384, common_pb2.SHA256, common_pb2.SHA512.
  cbn [existsb]. rewrite !orb_true_iff, !Z.eqb_eq. lia.
Qed.

Lemma AsUInt32_id (v : Z) : Spec.is_uint32 v = true -> AsUInt32 v = v.
Proof.
  rewrite is_uint32_range. intros Hv. unfold AsUInt32.
  rewrite land_UINT32_MAX. apply Z.mod_small.
  unfold UINT32_MAX in Hv. change (2 ^ 32) with 4294967296. lia.
Qed.

Lemma is_int32_range (v : Z) :
  is_int32 v = true <-> INT32_MIN <= v <= INT32_MAX.
Proof. unfold is_int32. rewrite andb_true_iff, !Z.leb_le. tauto. Qed.

Lemma is_hash_is_int32 (v : Z) : Spec.is_hash v = true -> is_int32 v = true.
Proof.
  rewrite is_hash_range, is_int32_range. unfold INT32_MIN, INT32_MAX. lia.
Qed.

(** The 64-bit two's complement a signed number is written as. *)
Lemma signed_varint_range (v : Z) :
  is_int32 v = true ->
  0 <= (if v <? 0 then v + 2 ^ 64 else v) < 2 ^ 64.
Proof.
  rewrite is_int32_range. unfold INT32_MIN, INT32_MAX. intros Hv.
  change (2 ^ 64) with 18446744073709551616.
  destruct (Z.ltb_spec v 0); lia.
Qed.

(** Reading a signed 32-bit number back from its two's complement. *)
Lemma AsInt32_signed (v : Z) :
  is_int32 v = true -> AsInt32 (if v <? 0 then v + 2 ^ 64 else v) = v.
Proof.
  rewrite is_int32_range. unfold INT32_MIN, INT32_MAX. intros Hv.
  unfold AsInt32. rewrite land_UINT32_MAX.
  change (2 ^ 64) with (4294967296 * 2 ^ 32).
  destruct (Z.ltb_spec v 0) as [Hneg | Hpos].
  - rewrite Z.mod_add by (change (2 ^ 32) with 4294967296; lia).
    replace (v mod 2 ^ 32) with (v + 2 ^ 32).
    + change (2 ^ 32) with 4294967296.
      destruct (Z.ltb_spec 2147483647 (v + 4294967296)); lia.
    + apply Z.mod_unique with (q := -1);
        change (2 ^ 32) with 4294967296; lia.
  - rewrite Z.mod_small by (change (2 ^ 32) with 4294967296; lia).
    destruct (Z.ltb_spec 2147483647 v); lia.
Qed.

Lemma ParseFields_WriteUInt32 (field_number value : Z) (rest : bytes) :
  1 <= field_number < 2 ^ 29 -> Spec.is_uint32 value = true ->
  ParseFields (WriteUInt32 field_number value ++ rest)
  = (fs <-? ParseFields rest ;;
     Some (scalar_fields field_number value ++ fs)).
Proof.
  intros Hf Hv. unfold WriteUInt32, scalar_fields.
  destruct (value =? 0).
  - simpl. destruct (ParseFields rest); reflexivity.
  - rewrite <- app_assoc.
    rewrite ParseFields_varint by (try apply is_uint32_lt; assumption).
    reflexivity.
Qed.

Lemma ParseFields_WriteEnum (field_number value : Z) (rest : bytes) :
  1 <= field_number < 2 ^ 29 -> is_int32 value = true ->
  ParseFields (WriteEnum field_number value ++ rest)
  = (fs <-? ParseFields rest ;;
     Some (enum_fields field_number value ++ fs)).
Proof.
  intros Hf Hv. apply signed_varint_range in Hv.
  unfold WriteEnum, enum_fields, EncodeSignedVarint.
  destruct (value =? 0).
  - simpl. destruct (ParseFields rest); reflexivity.
  - rewrite <- app_assoc.
    rewrite ParseFields_varint by assumption. reflexivity.
Qed.

Lemma ParseFields_WriteMessage (field_number : Z) (body : option bytes)
  (rest : bytes) :
  1 <= field_number < 2 ^ 29 ->
  (forall bs, body = Some bs -> Z.of_nat (length bs) < 2 ^ 64) ->
  ParseFields (WriteMessage field_number body ++ rest)
  = (fs <-? ParseFields rest ;;
     Some (message_fields field_number body ++ fs)).
Proof.
  intros Hf Hlen. unfold WriteMessage, message_fields.
  destruct body as [bs |].
  - rewrite <- !app_assoc.
    rewrite ParseFields_bytes by (try apply Hlen; auto).
    reflexivity.
  - simpl. destruct (ParseFields rest); reflexivity.
Qed.

Lemma WriteUInt32_length (field_number value : Z) :
  1 <= field_number < 2 ^ 29 -> Spec.is_uint32 value = true ->
  (length (WriteUInt32 field_number value) <= 20)%nat.
Proof.
  intros Hf Hv. unfold WriteUInt32, TagBytes.
  destruct (value =? 0); [simpl; lia |].
  rewrite length_app.
  pose proof (EncodeVarint_length value (is_uint32_lt value Hv)).
  pose proof (EncodeVarint_length (PackTag field_number WIRETYPE_VARINT)
                (PackTag_range field_number WIRETYPE_VARINT ltac:(lia)
                   ltac:(unfold WIRETYPE_VARINT; lia))).
  lia.
Qed.

Lemma WriteEnum_length (field_number value : Z) :
  1 <= field_number < 2 ^ 29 -> is_int32 value = true ->
  (length (WriteEnum field_number value) <= 20)%nat.
Proof.
  intros Hf Hv. apply signed_varint_range in Hv.
  unfold WriteEnum, TagBytes, EncodeSignedVarint.
  destruct (value =? 0); [simpl; lia |].
  rewrite length_app.
  pose proof (EncodeVarint_length _ Hv).
  pose proof (EncodeVarint_length (PackTag field_number WIRETYPE_VARINT)
                (PackTag_range field_number WIRETYPE_VARINT ltac:(lia)
                   ltac:(unfold WIRETYPE_VARINT; lia))).
  lia.
Qed.

Lemma WriteMessage_length (field_number : Z) (body : option bytes) (n : nat) :
  1 <= field_number < 2 ^ 29 ->
  (forall bs, body = Some bs -> (length bs <= n)%nat) ->
  (n <= 1000)%nat ->
  (length (WriteMessage field_number body) <= 20 + n)%nat.
Proof.
  intros Hf Hlen Hn. unfold WriteMessage, TagBytes.
  destruct body as [bs |]; [| simpl; lia].
  specialize (Hlen bs eq_refl).
  rewrite !length_app.
  pose proof (EncodeVarint_length (Z.of_nat (length bs))
                ltac:(change (2 ^ 64) with 18446744073709551616; lia)).
  pose proof (EncodeVarint_length
                (PackTag field_number WIRETYPE_LENGTH_DELIMITED)
                (PackTag_range field_number WIRETYPE_LENGTH_DELIMITED
                   ltac:(lia) ltac:(unfold WIRETYPE_LENGTH_DELIMITED; lia))).
  lia.
Qed.

End MessageFacts.

Module ParseFacts.
Import Wire WireFacts type_checkers MessageFacts.

Lemma ParseFields_WriteUInt32_end (field_number value : Z) :
  1 <= field_number < 2 ^ 29 -> Spec.is_uint32 value = true ->
  ParseFields (WriteUInt32 field_number value)
  = Some (scalar_fields field_number value).
Proof.
  intros Hf Hv.
  rewrite <- (app_nil_r (WriteUInt32 field_number value)).
  rewrite ParseFields_WriteUInt32 by assumption.
  cbn [ParseFields length ReadFields obind]. rewrite app_nil_r. reflexivity.
Qed.

Lemma ParseFields_WriteMessage_end (field_number : Z) (body : option bytes) :
  1 <= field_number < 2 ^ 29 ->
  (forall bs, body = Some bs -> Z.of_nat (length bs) < 2 ^ 64) ->
  ParseFields (WriteMessage field_number body)
  = Some (message_fields field_number body).
Proof.
  intros Hf Hlen.
  rewrite <- (app_nil_r (WriteMessage field_number body)).
  rewrite ParseFields_WriteMessage by assumption.
  cbn [ParseFields length ReadFields obind]. rewrite app_nil_r. reflexivity.
Qed.

(** *** AES-EAX *)

Lemma AesEaxParams_length (p : aes_eax_pb2.AesEaxParams) :
  Spec.eax_params_ok p = true ->
  (length (aes_eax_pb2.AesEaxParams_SerializeToString p) <= 20)%nat.
Proof.
  intros Hp. apply WriteUInt32_length; [field_number_ok | exact Hp].
Qed.

Lemma AesEaxParams_parse (p : aes_eax_pb2.AesEaxParams) :
  Spec.eax_params_ok p = true ->
  MergeFromString aes_eax_pb2.AesEaxParams_MergeField
    (aes_eax_pb2.AesEaxParams_SerializeToString p)
    aes_eax_pb2.AesEaxParams_new
  = Some p.
Proof.
  destruct p as [iv]. unfold Spec.eax_params_ok. cbn. intros Hiv.
  unfold MergeFromString, aes_eax_pb2.AesEaxParams_SerializeToString. cbn.
  rewrite ParseFields_WriteUInt32_end by (try field_number_ok; assumption).
  unfold scalar_fields. cbn [obind].
  destruct (Z.eqb_spec iv 0) as [-> | Hnz]; cbn; [reflexivity |].
  rewrite AsUInt32_id by assumption. reflexivity.
Qed.

Lemma AesEaxKeyFormat_parse (m : aes_eax_pb2.AesEaxKeyFormat) :
  Spec.eax_key_format_ok m = true ->
  aes_eax_pb2.ParseFromString (aes_eax_pb2.SerializeToString m) = Some m.
Proof.
  destruct m as [params key]. unfold Spec.eax_key_format_ok. cbn.
  rewrite andb_true_iff. intros [Hp Hk].
  unfold aes_eax_pb2.ParseFromString, MergeFromString,
    aes_eax_pb2.SerializeToString. cbn.
  rewrite ParseFields_WriteMessage.
  2: field_number_ok.
  2: { destruct params as [p |]; [| discriminate].
       small_length (AesEaxParams_length p Hp). }
  rewrite ParseFields_WriteUInt32_end by (try field_number_ok; assumption).
  cbn [obind]. unfold scalar_fields, message_fields.
  destruct params as [p |]; cbn.
  - rewrite AesEaxParams_parse by exact Hp. cbn.
    destruct (Z.eqb_spec key 0) as [-> | Hnz]; cbn; [reflexivity |].
    rewrite AsUInt32_id by assumption. reflexivity.
  - destruct (Z.eqb_spec key 0) as [-> | Hnz]; cbn; [reflexivity |].
    rewrite AsUInt32_id by assumption. reflexivity.
Qed.


(** *** AES-GCM and AES-GCM-SIV *)

Lemma AesGcmKeyFormat_parse (m : aes_gcm_pb2.AesGcmKeyFormat) :
  Spec.is_uint32 (aes_gcm_pb2.key_size m) = true ->
  aes_gcm_pb2.ParseFromString (aes_gcm_pb2.SerializeToString m) = Some m.
Proof.
  destruct m as [key]. cbn. intros Hk.
  unfold aes_gcm_pb2.ParseFromString, MergeFromString,
    aes_gcm_pb2.SerializeToString. cbn.
  rewrite ParseFields_WriteUInt32_end by (try field_number_ok; assumption).
  unfold scalar_fields. cbn [obind].
  destruct (Z.eqb_spec key 0) as [-> | Hnz]; cbn; [reflexivity |].
  rewrite AsUInt32_id by assumption. reflexivity.
Qed.

Lemma AesGcmSivKeyFormat_parse (m : aes_gcm_siv_pb2.AesGcmSivKeyFormat) :
  Spec.is_uint32 (aes_gcm_siv_pb2.key_size m) = true ->
  aes_gcm_siv_pb2.ParseFromString (aes_gcm_siv_pb2.SerializeToString m)
  = Some m.
Proof.
  destruct m as [key]. cbn. intros Hk.
  unfold aes_gcm_siv_pb2.ParseFromString, MergeFromString,
    aes_gcm_siv_pb2.SerializeToString. cbn.
  rewrite ParseFields_WriteUInt32_end by (try field_number_ok; assumption).
  unfold scalar_fields. cbn [obind].
  destruct (Z.eqb_spec key 0) as [-> | Hnz]; cbn; [reflexivity |].
  rewrite AsUInt32_id by assumption. reflexivity.
Qed.

(** *** AES-CTR *)

Lemma AesCtrParams_length (p : aes_ctr_pb2.AesCtrParams) :
  Spec.ctr_params_ok p = true ->
  (length (aes_ctr_pb2.AesCtrParams_SerializeToString p) <= 20)%nat.
Proof.
  intros Hp. apply WriteUInt32_length; [field_number_ok | exact Hp].
Qed.

Lemma AesCtrParams_parse (p : aes_ctr_pb2.AesCtrParams) :
  Spec.ctr_params_ok p = true ->
  MergeFromString aes_ctr_pb2.AesCtrParams_MergeField
    (aes_ctr_pb2.AesCtrParams_SerializeToString p)
    aes_ctr_pb2.AesCtrParams_new
  = Some p.
Proof.
  destruct p as [iv]. unfold Spec.ctr_params_ok. cbn. intros Hiv.
  unfold MergeFromString, aes_ctr_pb2.AesCtrParams_SerializeToString. cbn.
  rewrite ParseFields_WriteUInt32_end by (try field_number_ok; assumption).
  unfold scalar_fields. cbn [obind].
  destruct (Z.eqb_spec iv 0) as [-> | Hnz]; cbn; [reflexivity |].
  rewrite AsUInt32_id by assumption. reflexivity.
Qed.

Lemma AesCtrKeyFormat_length (m : aes_ctr_pb2.AesCtrKeyFormat) :
  Spec.ctr_key_format_ok m = true ->
  (length (aes_ctr_pb2.SerializeToString m) <= 60)%nat.
Proof.
  destruct m as [params key]. unfold Spec.ctr_key_format_ok. cbn.
  rewrite andb_true_iff. intros [Hp Hk].
  unfold aes_ctr_pb2.SerializeToString. cbn. rewrite length_app.
  pose proof (WriteUInt32_length 2 key ltac:(field_number_ok) Hk).
  pose proof (WriteMessage_length 1
                (option_map aes_ctr_pb2.AesCtrParams_SerializeToString params)
                20 ltac:(field_number_ok)) as Hm.
  assert (length (WriteMessage 1
            (option_map aes_ctr_pb2.AesCtrParams_SerializeToString params))
          <= 20 + 20)%nat; [| lia].
  apply Hm; [| lia].
  destruct params as [p |]; [| discriminate].
  intros bs E. injection E as <-. apply AesCtrParams_length. exact Hp.
Qed.

Lemma AesCtrKeyFormat_parse (m : aes_ctr_pb2.AesCtrKeyFormat) :
  Spec.ctr_key_format_ok m = true ->
  MergeFromString aes_ctr_pb2.MergeField (aes_ctr_pb2.SerializeToString m)
    aes_ctr_pb2.AesCtrKeyFormat_new
  = Some m.
Proof.
  destruct m as [params key]. unfold Spec.ctr_key_format_ok. cbn.
  rewrite andb_true_iff. intros [Hp Hk].
  unfold MergeFromString, aes_ctr_pb2.SerializeToString. cbn.
  rewrite ParseFields_WriteMessage.
  2: field_number_ok.
  2: { destruct params as [p |]; [| discriminate].
       small_length (AesCtrParams_length p Hp). }
  rewrite ParseFields_WriteUInt32_end by (try field_number_ok; assumption).
  cbn [obind]. unfold scalar_fields, message_fields.
  destruct params as [p |]; cbn.
  - rewrite AesCtrParams_parse by exact Hp. cbn.
    destruct (Z.eqb_spec key 0) as [-> | Hnz]; cbn; [reflexivity |].
    rewrite AsUInt32_id by assumption. reflexivity.
  - destruct (Z.eqb_spec key 0) as [-> | Hnz]; cbn; [reflexivity |].
    rewrite AsUInt32_id by assumption. reflexivity.
Qed.

(** *** HMAC *)

Lemma HmacParams_length (p : hmac_pb2.HmacParams) :
  hmac_params_accepted p = true ->
  (length (hmac_pb2.HmacParams_SerializeToString p) <= 40)%nat.
Proof.
  destruct p as [hash tag]. unfold hmac_params_accepted. cbn.
  rewrite andb_true_iff. intros [Hh Ht].
  unfold hmac_pb2.HmacParams_SerializeToString. cbn. rewrite length_app.
  pose proof (WriteEnum_length 1 hash ltac:(field_number_ok) Hh).
  pose proof (WriteUInt32_length 2 tag ltac:(field_number_ok) Ht).
  lia.
Qed.

Lemma HmacParams_parse (p : hmac_pb2.HmacParams) :
  hmac_params_accepted p = true ->
  MergeFromString hmac_pb2.HmacParams_MergeField
    (hmac_pb2.HmacParams_SerializeToString p) hmac_pb2.HmacParams_new
  = Some p.
Proof.
  destruct p as [hash tag]. unfold hmac_params_accepted. cbn.
  rewrite andb_true_iff. intros [Hh Ht].
  unfold MergeFromString, hmac_pb2.HmacParams_SerializeToString. cbn.
  rewrite ParseFields_WriteEnum by (try field_number_ok; assumption).
  rewrite ParseFields_WriteUInt32_end by (try field_number_ok; assumption).
  cbn [obind]. unfold scalar_fields, enum_fields.
  destruct (Z.eqb_spec hash 0) as [-> | Hhnz];
    destruct (Z.eqb_spec tag 0) as [-> | Htnz];
    cbn [app MergeFields obind hmac_pb2.HmacParams_MergeField
           hmac_pb2.HmacParams_new hmac_pb2.hash hmac_pb2.tag_size];
    rewrite ?AsInt32_signed by assumption;
    rewrite ?AsUInt32_id by assumption;
    reflexivity.
Qed.

Lemma HmacKeyFormat_length (m : hmac_pb2.HmacKeyFormat) :
  hmac_key_format_accepted m = true ->
  (length (hmac_pb2.SerializeToString m) <= 80)%nat.
Proof.
  destruct m as [params key]. unfold hmac_key_format_accepted. cbn.
  rewrite andb_true_iff. intros [Hp Hk].
  unfold hmac_pb2.SerializeToString. cbn. rewrite length_app.
  pose proof (WriteUInt32_length 2 key ltac:(field_number_ok) Hk).
  pose proof (WriteMessage_length 1
                (option_map hmac_pb2.HmacParams_SerializeToString params)
                40 ltac:(field_number_ok)) as Hm.
  assert (length (WriteMessage 1
            (option_map hmac_pb2.HmacParams_SerializeToString params))
          <= 20 + 40)%nat; [| lia].
  apply Hm; [| lia].
  destruct params as [p |]; [| discriminate].
  intros bs E. injection E as <-. apply HmacParams_length. exact Hp.
Qed.

Lemma HmacKeyFormat_parse (m : hmac_pb2.HmacKeyFormat) :
  hmac_key_format_accepted m = true ->
  MergeFromString hmac_pb2.MergeField (hmac_pb2.SerializeToString m)
    hmac_pb2.HmacKeyFormat_new
  = Some m.
Proof.
  destruct m as [params key]. unfold hmac_key_format_accepted. cbn.
  rewrite andb_true_iff. intros [Hp Hk].
  unfold MergeFromString, hmac_pb2.SerializeToString. cbn.
  rewrite ParseFields_WriteMessage.
  2: field_number_ok.
  2: { destruct params as [p |]; [| discriminate].
       small_length (HmacParams_length p Hp). }
  rewrite ParseFields_WriteUInt32_end by (try field_number_ok; assumption).
  cbn [obind]. unfold scalar_fields, message_fields.
  destruct params as [p |]; cbn.
  - rewrite HmacParams_parse by exact Hp. cbn.
    destruct (Z.eqb_spec key 0) as [-> | Hnz]; cbn; [reflexivity |].
    rewrite AsUInt32_id by assumption. reflexivity.
  - destruct (Z.eqb_spec key 0) as [-> | Hnz]; cbn; [reflexivity |].
    rewrite AsUInt32_id by assumption. reflexivity.
Qed.

(** *** AES-CTR-HMAC *)

Lemma AesCtrHmacAeadKeyFormat_parse
  (m : aes_ctr_hmac_aead_pb2.AesCtrHmacAeadKeyFormat) :
  ctr_hmac_key_format_accepted m = true ->
  aes_ctr_hmac_aead_pb2.ParseFromString
    (aes_ctr_hmac_aead_pb2.SerializeToString m)
  = Some m.
Proof.
  destruct m as [ctr hmac]. unfold ctr_hmac_key_format_accepted. cbn.
  rewrite andb_true_iff. intros [Hc Hh].
  unfold aes_ctr_hmac_aead_pb2.ParseFromString, MergeFromString,
    aes_ctr_hmac_aead_pb2.SerializeToString. cbn.
  rewrite ParseFields_WriteMessage.
  2: field_number_ok.
  2: { destruct ctr as [c |]; [| discriminate].
       small_length (AesCtrKeyFormat_length c Hc). }
  rewrite ParseFields_WriteMessage_end.
  2: field_number_ok.
  2: { destruct hmac as [h |]; [| discriminate].
       small_length (HmacKeyFormat_length h Hh). }
  cbn [obind]. unfold message_fields.
  destruct ctr as [c |]; destruct hmac as [h |]; cbn;
    rewrite ?AesCtrKeyFormat_parse by exact Hc; cbn;
    rewrite ?HmacKeyFormat_parse by exact Hh; reflexivity.
Qed.

(** A record the specification can represent is one the setters accept. *)
Lemma representable_accepted (r : Spec.ParameterRecord) :
  Spec.representable r = true -> accepted r = true.
Proof.
  destruct r as [m | m | m | m |]; cbn [Spec.representable accepted];
    try (intros H; exact H).
  destruct m as [ctr hmac].
  unfold Spec.ctr_hmac_key_format_ok, ctr_hmac_key_format_accepted. cbn.
  rewrite !andb_true_iff. intros [Hc Hh]. split; [exact Hc |].
  destruct hmac as [[params key] |]; [| reflexivity].
  revert Hh. cbn. unfold Spec.hmac_key_format_ok, hmac_key_format_accepted.
  cbn. rewrite !andb_true_iff. intros [Hp Hk]. split; [| exact Hk].
  destruct params as [[hash tag] |]; [| reflexivity].
  revert Hp. cbn. unfold Spec.hmac_params_ok, hmac_params_accepted. cbn.
  rewrite !andb_true_iff. intros [Hhash Htag].
  split; [apply is_hash_is_int32; exact Hhash | exact Htag].
Qed.

(** Deserializing what was serialized gives the record back, for every
    record the setters accept. *)
Lemma deserialize_serialize (r : Spec.ParameterRecord) :
  accepted r = true ->
  Spec.deserialize (Spec.type_identifier r) (Spec.serialize r) = Some r.
Proof.
  destruct r as [m | m | m | m |]; cbn [accepted]; intros Hr;
    unfold Spec.deserialize; cbn [Spec.type_identifier Spec.serialize].
  - change (String.eqb _ _AES_EAX_KEY_TYPE_URL) with true; cbv iota.
    rewrite AesEaxKeyFormat_parse by exact Hr. reflexivity.
  - change (String.eqb _ _AES_EAX_KEY_TYPE_URL) with false.
    change (String.eqb _ _AES_GCM_KEY_TYPE_URL) with true; cbv iota.
    rewrite AesGcmKeyFormat_parse by exact Hr. reflexivity.
  - change (String.eqb _ _AES_EAX_KEY_TYPE_URL) with false.
    change (String.eqb _ _AES_GCM_KEY_TYPE_URL) with false.
    change (String.eqb _ _AES_GCM_SIV_KEY_TYPE_URL) with true; cbv iota.
    rewrite AesGcmSivKeyFormat_parse by exact Hr. reflexivity.
  - change (String.eqb _ _AES_EAX_KEY_TYPE_URL) with false.
    change (String.eqb _ _AES_GCM_KEY_TYPE_URL) with false.
    change (String.eqb _ _AES_GCM_SIV_KEY_TYPE_URL) with false.
    change (String.eqb _ _AES_CTR_HMAC_AEAD_KEY_TYPE_URL) with true; cbv iota.
    rewrite AesCtrHmacAeadKeyFormat_parse by exact Hr. reflexivity.
  - reflexivity.
Qed.

End ParseFacts.

Module SourceFacts.
Import type_checkers MessageFacts ParseFacts.

Lemma CheckUInt32_is_uint32 (v : Z) :
  CheckUInt32 v = if Spec.is_uint32 v then Ok v else Raise (ValueOutOfRange v).
Proof. reflexivity. Qed.

Lemma CheckInt32_is_int32 (v : Z) :
  CheckInt32 v = if is_int32 v then Ok v else Raise (ValueOutOfRange v).
Proof. reflexivity. Qed.

(** What each function returns, and when. *)
Lemma create_aes_eax_key_template_eq (key_size iv_size : Z) :
  create_aes_eax_key_template key_size iv_size
  = if Spec.is_uint32 iv_size then
      if Spec.is_uint32 key_size then
        Ok (Spec.assemble _AES_EAX_KEY_TYPE_URL
              (Spec.serialize (Spec.eax_record key_size iv_size))
              tink_pb2.TINK)
      else Raise (ValueOutOfRange key_size)
    else Raise (ValueOutOfRange iv_size).
Proof.
  unfold create_aes_eax_key_template, aes_eax_pb2.with_params,
    aes_eax_pb2.set_iv_size, aes_eax_pb2.set_key_size.
  rewrite !CheckUInt32_is_uint32.
  destruct (Spec.is_uint32 iv_size); [| reflexivity].
  destruct (Spec.is_uint32 key_size); reflexivity.
Qed.

Lemma create_aes_gcm_key_template_eq (key_size : Z) :
  create_aes_gcm_key_template key_size
  = if Spec.is_uint32 key_size then
      Ok (Spec.assemble _AES_GCM_KEY_TYPE_URL
            (Spec.serialize (Spec.gcm_record key_size)) tink_pb2.TINK)
    else Raise (ValueOutOfRange key_size).
Proof.
  unfold create_aes_gcm_key_template, aes_gcm_pb2.set_key_size.
  rewrite !CheckUInt32_is_uint32.
  destruct (Spec.is_uint32 key_size); reflexivity.
Qed.

Lemma create_aes_gcm_siv_key_template_eq (key_size : Z) :
  create_aes_gcm_siv_key_template key_size
  = if Spec.is_uint32 key_size then
      Ok (Spec.assemble _AES_GCM_SIV_KEY_TYPE_URL
            (Spec.serialize (Spec.gcm_siv_record key_size)) tink_pb2.TINK)
    else Raise (ValueOutOfRange key_size).
Proof.
  unfold create_aes_gcm_siv_key_template, aes_gcm_siv_pb2.set_key_size.
  rewrite !CheckUInt32_is_uint32.
  destruct (Spec.is_uint32 key_size); reflexivity.
Qed.

Lemma create_aes_ctr_hmac_aead_key_template_eq
  (aes_key_size iv_size hmac_key_size tag_size hash_type : Z) :
  create_aes_ctr_hmac_aead_key_template aes_key_size iv_size hmac_key_size
    tag_size hash_type
  = if Spec.is_uint32 iv_size then
      if Spec.is_uint32 aes_key_size then
        if is_int32 hash_type then
          if Spec.is_uint32 tag_size then
            if Spec.is_uint32 hmac_key_size then
              Ok (Spec.assemble _AES_CTR_HMAC_AEAD_KEY_TYPE_URL
                    (Spec.serialize
                       (Spec.ctr_hmac_record aes_key_size iv_size
                          hmac_key_size tag_size hash_type))
                    tink_pb2.TINK)
            else Raise (ValueOutOfRange hmac_key_size)
          else Raise (ValueOutOfRange tag_size)
        else Raise (ValueOutOfRange hash_type)
      else Raise (ValueOutOfRange aes_key_size)
    else Raise (ValueOutOfRange iv_size).
Proof.
  unfold create_aes_ctr_hmac_aead_key_template,
    aes_ctr_hmac_aead_pb2.with_aes_ctr_key_format,
    aes_ctr_hmac_aead_pb2.with_hmac_key_format,
    aes_ctr_pb2.with_params, aes_ctr_pb2.set_iv_size,
    aes_ctr_pb2.set_key_size, hmac_pb2.with_params, hmac_pb2.set_hash,
    hmac_pb2.set_tag_size, hmac_pb2.set_key_size.
  rewrite !CheckUInt32_is_uint32, CheckInt32_is_int32.
  destruct (Spec.is_uint32 iv_size); [| reflexivity].
  destruct (Spec.is_uint32 aes_key_size); [| reflexivity].
  destruct (is_int32 hash_type); [| reflexivity].
  destruct (Spec.is_uint32 tag_size); [| reflexivity].
  destruct (Spec.is_uint32 hmac_key_size); reflexivity.
Qed.

Lemma representable_eax_record (key_size iv_size : Z) :
  Spec.representable (Spec.eax_record key_size iv_size)
  = Spec.is_uint32 iv_size && Spec.is_uint32 key_size.
Proof. reflexivity. Qed.

Lemma accepted_ctr_hmac_record
  (aes_key_size iv_size hmac_key_size tag_size hash : Z) :
  accepted
    (Spec.ctr_hmac_record aes_key_size iv_size hmac_key_size tag_size hash)
  = (Spec.is_uint32 iv_size && Spec.is_uint32 aes_key_size)
    && ((is_int32 hash && Spec.is_uint32 tag_size)
        && Spec.is_uint32 hmac_key_size).
Proof. reflexivity. Qed.

Lemma create_aes_eax_key_template_Ok (key_size iv_size : Z)
  (t : tink_pb2.KeyTemplate) :
  create_aes_eax_key_template key_size iv_size = Ok t ->
  Spec.is_uint32 key_size = true /\ Spec.is_uint32 iv_size = true /\
  t = Spec.assemble _AES_EAX_KEY_TYPE_URL
        (Spec.serialize (Spec.eax_record key_size iv_size)) tink_pb2.TINK.
Proof.
  rewrite create_aes_eax_key_template_eq.
  destruct (Spec.is_uint32 iv_size); [| discriminate].
  destruct (Spec.is_uint32 key_size); [| discriminate].
  intros H. injection H as <-. auto.
Qed.

Lemma create_aes_gcm_key_template_Ok (key_size : Z)
  (t : tink_pb2.KeyTemplate) :
  create_aes_gcm_key_template key_size = Ok t ->
  Spec.is_uint32 key_size = true /\
  t = Spec.assemble _AES_GCM_KEY_TYPE_URL
        (Spec.serialize (Spec.gcm_record key_size)) tink_pb2.TINK.
Proof.
  rewrite create_aes_gcm_key_template_eq.
  destruct (Spec.is_uint32 key_size); [| discriminate].
  intros H. injection H as <-. auto.
Qed.

Lemma create_aes_gcm_siv_key_template_Ok (key_size : Z)
  (t : tink_pb2.KeyTemplate) :
  create_aes_gcm_siv_key_template key_size = Ok t ->
  Spec.is_uint32 key_size = true /\
  t = Spec.assemble _AES_GCM_SIV_KEY_TYPE_URL
        (Spec.serialize (Spec.gcm_siv_record key_size)) tink_pb2.TINK.
Proof.
  rewrite create_aes_gcm_siv_key_template_eq.
  destruct (Spec.is_uint32 key_size); [| discriminate].
  intros H. injection H as <-. auto.
Qed.

Lemma create_aes_ctr_hmac_aead_key_template_Ok
  (aes_key_size iv_size hmac_key_size tag_size hash_type : Z)
  (t : tink_pb2.KeyTemplate) :
  create_aes_ctr_hmac_aead_key_template aes_key_size iv_size hmac_key_size
    tag_size hash_type = Ok t ->
  accepted
    (Spec.ctr_hmac_record aes_key_size iv_size hmac_key_size tag_size
       hash_type) = true /\
  t = Spec.assemble _AES_CTR_HMAC_AEAD_KEY_TYPE_URL
        (Spec.serialize
           (Spec.ctr_hmac_record aes_key_size iv_size hmac_key_size tag_size
              hash_type))
        tink_pb2.TINK.
Proof.
  rewrite create_aes_ctr_hmac_aead_key_template_eq.
  rewrite accepted_ctr_hmac_record.
  destruct (Spec.is_uint32 iv_size); [| discriminate].
  destruct (Spec.is_uint32 aes_key_size); [| discriminate].
  destruct (is_int32 hash_type); [| discriminate].
  destruct (Spec.is_uint32 tag_size); [| discriminate].
  destruct (Spec.is_uint32 hmac_key_size); [| discriminate].
  intros H. injection H as <-. split; reflexivity.
Qed.

(** Every produced template is the assembly of an accepted record. *)
Lemma produced_inv (t : tink_pb2.KeyTemplate) :
  produced t ->
  exists r, accepted r = true /\
            t = Spec.assemble (Spec.type_identifier r) (Spec.serialize r)
                  tink_pb2.TINK.
Proof.
  intros [k iv t' H | k t' H | k t' H | a iv h tg hs t' H | t' H].
  - apply create_aes_eax_key_template_Ok in H as (Hk & Hiv & ->).
    exists (Spec.eax_record k iv). split; [| reflexivity].
    change (accepted (Spec.eax_record k iv))
      with (Spec.representable (Spec.eax_record k iv)).
    rewrite representable_eax_record, Hk, Hiv. reflexivity.
  - apply create_aes_gcm_key_template_Ok in H as (Hk & ->).
    exists (Spec.gcm_record k). split; [exact Hk | reflexivity].
  - apply create_aes_gcm_siv_key_template_Ok in H as (Hk & ->).
    exists (Spec.gcm_siv_record k). split; [exact Hk | reflexivity].
  - apply create_aes_ctr_hmac_aead_key_template_Ok in H as (Hr & ->).
    exists (Spec.ctr_hmac_record a iv h tg hs). split; [exact Hr | reflexivity].
  - injection H as <-. exists Spec.XCHACHA20_POLY1305.
    split; reflexivity.
Qed.

End SourceFacts.
Import MessageFacts ParseFacts SourceFacts.

(** Two accepted records of one variant with the same bytes are the same
    record. *)
Lemma serialize_injective (r1 r2 : Spec.ParameterRecord) :
  accepted r1 = true -> accepted r2 = true ->
  Spec.type_identifier r1 = Spec.type_identifier r2 ->
  Spec.serialize r1 = Spec.serialize r2 ->
  r1 = r2.
Proof.
  intros H1 H2 Hid Hbytes.
  pose proof (deserialize_serialize r1 H1) as D1.
  pose proof (deserialize_serialize r2 H2) as D2.
  rewrite Hid, Hbytes, D2 in D1. injection D1 as ->. reflexivity.
Qed.

Lemma type_identifiers_NoDup : NoDup Spec.type_identifiers.
Proof.
  unfold Spec.type_identifiers.
  repeat (constructor; [simpl; intuition discriminate |]).
  constructor.
Qed.

(** ** Claims *)

(** C1: every template returned by one of the four [create_*] functions has
    output prefix type TINK and the fixed type URL of its variant; each of
    the nine catalog constants is a template with output prefix type TINK
    and one of the five (pairwise distinct) identifiers of section 6. *)
Theorem templates_carry_TINK_and_fixed_identifier :
  (forall key_size iv_size t,
      create_aes_eax_key_template key_size iv_size = Ok t ->
      tink_pb2.output_prefix_type t = tink_pb2.TINK /\
      tink_pb2.type_url t
      = "type.googleapis.com/google.crypto.tink.AesEaxKey"%string) /\
  (forall key_size t,
      create_aes_gcm_key_template key_size = Ok t ->
      tink_pb2.output_prefix_type t = tink_pb2.TINK /\
      tink_pb2.type_url t
      = "type.googleapis.com/google.crypto.tink.AesGcmKey"%string) /\
  (forall key_size t,
      create_aes_gcm_siv_key_template key_size = Ok t ->
      tink_pb2.output_prefix_type t = tink_pb2.TINK /\
      tink_pb2.type_url t
      = "type.googleapis.com/google.crypto.tink.AesGcmSivKey"%string) /\
  (forall aes_key_size iv_size hmac_key_size tag_size hash_type t,
      create_aes_ctr_hmac_aead_key_template aes_key_size iv_size
        hmac_key_size tag_size hash_type = Ok t ->
      tink_pb2.output_prefix_type t = tink_pb2.TINK /\
      tink_pb2.type_url t
      = "type.googleapis.com/google.crypto.tink.AesCtrHmacAeadKey"%string) /\
  NoDup Spec.type_identifiers /\
  Forall
    (fun entry =>
       exists t, snd entry = Ok t /\
                 tink_pb2.output_prefix_type t = tink_pb2.TINK /\
                 In (tink_pb2.type_url t) Spec.type_identifiers)
    catalog.
Proof.
  split; [intros key_size iv_size t H |].
  { apply create_aes_eax_key_template_Ok in H as (_ & _ & ->).
    split; reflexivity. }
  split; [intros key_size t H |].
  { apply create_aes_gcm_key_template_Ok in H as (_ & ->).
    split; reflexivity. }
  split; [intros key_size t H |].
  { apply create_aes_gcm_siv_key_template_Ok in H as (_ & ->).
    split; reflexivity. }
  split; [intros aes_key_size iv_size hmac_key_size tag_size hash_type t H |].
  { apply create_aes_ctr_hmac_aead_key_template_Ok in H as (_ & ->).
    split; reflexivity. }
  split; [apply type_identifiers_NoDup |].
  unfold catalog.
  repeat (constructor;
          [eexists; split; [vm_compute; reflexivity |];
           split; [reflexivity | simpl; tauto] |]).
  constructor.
Qed.

Lemma templates_carry_TINK_and_fixed_identifier_witness :
  create_aes_eax_key_template 16 16
  = Ok {| tink_pb2.type_url :=
            "type.googleapis.com/google.crypto.tink.AesEaxKey";
          tink_pb2.value := [10; 2; 8; 16; 16; 16];
          tink_pb2.output_prefix_type := tink_pb2.TINK |} /\
  tink_pb2.output_prefix_type
    {| tink_pb2.type_url :=
         "type.googleapis.com/google.crypto.tink.AesEaxKey";
       tink_pb2.value := [10; 2; 8; 16; 16; 16];
       tink_pb2.output_prefix_type := tink_pb2.TINK |} = tink_pb2.TINK /\
  tink_pb2.type_url
    {| tink_pb2.type_url :=
         "type.googleapis.com/google.crypto.tink.AesEaxKey";
       tink_pb2.value := [10; 2; 8; 16; 16; 16];
       tink_pb2.output_prefix_type := tink_pb2.TINK |}
  = "type.googleapis.com/google.crypto.tink.AesEaxKey"%string.
Proof.
  split; [reflexivity |].
  apply (proj1 templates_carry_TINK_and_fixed_identifier 16 16).
  reflexivity.
Defined.

(** C2: the catalog entry AES128_CTR_HMAC_SHA256 is the call
    [create_aes_ctr_hmac_aead_key_template(16, 16, 32, 16, SHA256)], and it
    equals the CTR-HMAC record with aes_key_size 16, iv_size 16,
    hmac_key_size 32, tag_size 16 and hash SHA256, encoded and assembled
    with the AesCtrHmacAeadKey identifier and TINK. *)
Theorem AES128_CTR_HMAC_SHA256_is_encoded_record :
  AES128_CTR_HMAC_SHA256
  = create_aes_ctr_hmac_aead_key_template 16 16 32 16 common_pb2.SHA256 /\
  Spec.encode_ctr_hmac 16 16 32 16 common_pb2.SHA256
  = Some [10; 6; 10; 2; 8; 16; 16; 16; 18; 8; 10; 4; 8; 3; 16; 16; 16; 32] /\
  AES128_CTR_HMAC_SHA256
  = Ok (Spec.assemble
          "type.googleapis.com/google.crypto.tink.AesCtrHmacAeadKey"
          [10; 6; 10; 2; 8; 16; 16; 16; 18; 8; 10; 4; 8; 3; 16; 16; 16; 32]
          tink_pb2.TINK).
Proof. repeat split; vm_compute; reflexivity. Qed.

(** C3: AES128_EAX is the EAX record with key_size 16 and iv_size 16,
    encoded and assembled with the AesEaxKey identifier and TINK; AES256_GCM
    is the GCM record with key_size 32, encoded and assembled with the
    AesGcmKey identifier and TINK. *)
Theorem AES128_EAX_and_AES256_GCM_are_encoded_records :
  (Spec.encode_eax 16 16 = Some [10; 2; 8; 16; 16; 16] /\
   AES128_EAX
   = Ok (Spec.assemble "type.googleapis.com/google.crypto.tink.AesEaxKey"
           [10; 2; 8; 16; 16; 16] tink_pb2.TINK)) /\
  (Spec.encode_gcm 32 = Some [16; 32] /\
   AES256_GCM
   = Ok (Spec.assemble "type.googleapis.com/google.crypto.tink.AesGcmKey"
           [16; 32] tink_pb2.TINK)).
Proof. repeat split; vm_compute; reflexivity. Qed.

(** C4: the catalog entry XCHACHA20_POLY1305 has an empty value, the
    XChaCha20Poly1305Key type URL and output prefix type TINK. *)
Theorem XCHACHA20_POLY1305_has_no_parameters :
  XCHACHA20_POLY1305
  = Ok {| tink_pb2.type_url :=
            "type.googleapis.com/google.crypto.tink.XChaCha20Poly1305Key";
          tink_pb2.value := [];
          tink_pb2.output_prefix_type := tink_pb2.TINK |}.
Proof. reflexivity. Qed.

(** C6: for each variant, two calls that return templates from argument
    tuples differing in at least one field return distinct value bytes. *)
Theorem encoding_is_injective :
  (forall r1 r2 bs1 bs2,
      Spec.type_identifier r1 = Spec.type_identifier r2 ->
      Spec.encode r1 = Some bs1 -> Spec.encode r2 = Some bs2 ->
      r1 <> r2 ->
      bs1 <> bs2) /\
  (forall k1 iv1 k2 iv2 t1 t2,
      create_aes_eax_key_template k1 iv1 = Ok t1 ->
      create_aes_eax_key_template k2 iv2 = Ok t2 ->
      (k1, iv1) <> (k2, iv2) ->
      tink_pb2.value t1 <> tink_pb2.value t2) /\
  (forall k1 k2 t1 t2,
      create_aes_gcm_key_template k1 = Ok t1 ->
      create_aes_gcm_key_template k2 = Ok t2 ->
      k1 <> k2 ->
      tink_pb2.value t1 <> tink_pb2.value t2) /\
  (forall k1 k2 t1 t2,
      create_aes_gcm_siv_key_template k1 = Ok t1 ->
      create_aes_gcm_siv_key_template k2 = Ok t2 ->
      k1 <> k2 ->
      tink_pb2.value t1 <> tink_pb2.value t2) /\
  (forall a1 iv1 h1 tg1 hs1 a2 iv2 h2 tg2 hs2 t1 t2,
      create_aes_ctr_hmac_aead_key_template a1 iv1 h1 tg1 hs1 = Ok t1 ->
      create_aes_ctr_hmac_aead_key_template a2 iv2 h2 tg2 hs2 = Ok t2 ->
      (a1, iv1, h1, tg1, hs1) <> (a2, iv2, h2, tg2, hs2) ->
      tink_pb2.value t1 <> tink_pb2.value t2).
Proof.
  split; [intros r1 r2 bs1 bs2 Hid H1 H2 Hne Hv |].
  { unfold Spec.encode in H1, H2.
    destruct (Spec.representable r1) eqn:Hr1; [| discriminate].
    destruct (Spec.representable r2) eqn:Hr2; [| discriminate].
    injection H1 as <-. injection H2 as <-.
    apply Hne.
    apply serialize_injective; try apply representable_accepted;
      assumption. }
  split; [intros k1 iv1 k2 iv2 t1 t2 H1 H2 Hne Hv |].
  { apply create_aes_eax_key_template_Ok in H1 as (Hk1 & Hiv1 & ->).
    apply create_aes_eax_key_template_Ok in H2 as (Hk2 & Hiv2 & ->).
    cbn [Spec.assemble tink_pb2.value] in Hv.
    apply serialize_injective in Hv;
      try (apply representable_accepted;
           rewrite representable_eax_record, ?Hk1, ?Hiv1, ?Hk2, ?Hiv2);
      try reflexivity.
    apply Hne. injection Hv as -> ->. reflexivity. }
  split; [intros k1 k2 t1 t2 H1 H2 Hne Hv |].
  { apply create_aes_gcm_key_template_Ok in H1 as (Hk1 & ->).
    apply create_aes_gcm_key_template_Ok in H2 as (Hk2 & ->).
    cbn [Spec.assemble tink_pb2.value] in Hv.
    apply serialize_injective in Hv; try assumption; try reflexivity.
    apply Hne. injection Hv as ->. reflexivity. }
  split; [intros k1 k2 t1 t2 H1 H2 Hne Hv |].
  { apply create_aes_gcm_siv_key_template_Ok in H1 as (Hk1 & ->).
    apply create_aes_gcm_siv_key_template_Ok in H2 as (Hk2 & ->).
    cbn [Spec.assemble tink_pb2.value] in Hv.
    apply serialize_injective in Hv; try assumption; try reflexivity.
    apply Hne. injection Hv as ->. reflexivity. }
  intros a1 iv1 h1 tg1 hs1 a2 iv2 h2 tg2 hs2 t1 t2 H1 H2 Hne Hv.
  apply create_aes_ctr_hmac_aead_key_template_Ok in H1 as (Hr1 & ->).
  apply create_aes_ctr_hmac_aead_key_template_Ok in H2 as (Hr2 & ->).
  cbn [Spec.assemble tink_pb2.value] in Hv.
  apply serialize_injective in Hv; try assumption; try reflexivity.
  apply Hne. injection Hv as -> -> -> -> ->. reflexivity.
Qed.

Lemma encoding_is_injective_witness :
  tink_pb2.value
    {| tink_pb2.type_url :=
         "type.googleapis.com/google.crypto.tink.AesGcmKey";
       tink_pb2.value := [16; 16];
       tink_pb2.output_prefix_type := tink_pb2.TINK |}
  <> tink_pb2.value
       {| tink_pb2.type_url :=
            "type.googleapis.com/google.crypto.tink.AesGcmKey";
          tink_pb2.value := [16; 32];
          tink_pb2.output_prefix_type := tink_pb2.TINK |}.
Proof.
  apply (proj1 (proj2 (proj2 encoding_is_injective)) 16 32).
  - reflexivity.
  - reflexivity.
  - lia.
Defined.

(** C7: for every template produced by the module, also one built with a
    hash that is not declared, deserializing its value into the record
    shape selected by its type URL succeeds, and serializing that record
    again gives exactly the value bytes. *)
Theorem deserialize_then_serialize_is_identity (t : tink_pb2.KeyTemplate) :
  produced t ->
  exists r,
    Spec.deserialize (tink_pb2.type_url t) (tink_pb2.value t) = Some r /\
    Spec.serialize r = tink_pb2.value t.
Proof.
  intros Hp. destruct (produced_inv t Hp) as (r & Hr & ->).
  exists r. cbn [Spec.assemble tink_pb2.type_url tink_pb2.value].
  split; [apply deserialize_serialize; exact Hr | reflexivity].
Qed.

Lemma deserialize_then_serialize_is_identity_witness :
  exists r,
    Spec.deserialize
      "type.googleapis.com/google.crypto.tink.AesCtrHmacAeadKey"
      [10; 6; 10; 2; 8; 16; 16; 16; 18; 8; 10; 4; 8; 99; 16; 16; 16; 32]
    = Some r /\
    Spec.serialize r
    = [10; 6; 10; 2; 8; 16; 16; 16; 18; 8; 10; 4; 8; 99; 16; 16; 16; 32].
Proof.
  apply (deserialize_then_serialize_is_identity
           {| tink_pb2.type_url :=
                "type.googleapis.com/google.crypto.tink.AesCtrHmacAeadKey";
              tink_pb2.value :=
                [10; 6; 10; 2; 8; 16; 16; 16; 18; 8; 10; 4; 8; 99; 16; 16;
                 16; 32];
              tink_pb2.output_prefix_type := tink_pb2.TINK |}).
  apply (produced_ctr_hmac 16 16 32 16 99).
  reflexivity.
Defined.




(** C9, as stated, fails: a size that does not fit the unsigned 32-bit
    field is refused at the assignment, so not every integer size is
    accepted, and an enum value is not the only input that makes a function
    raise. *)
Lemma size_outside_uint32_is_refused :
  create_aes_gcm_key_template (-1) = Raise (ValueOutOfRange (-1)) /\
  create_aes_eax_key_template 4294967296 16
  = Raise (ValueOutOfRange 4294967296) /\
  ~ (forall key_size, exists t, create_aes_gcm_key_template key_size = Ok t).
Proof.
  split; [reflexivity |]. split; [reflexivity |].
  intros H. destruct (H (-1)) as [t Ht]. discriminate Ht.
Qed.

(** C9, amended: a function returns a template exactly when every size
    fits its unsigned 32-bit field (and, for CTR-HMAC, the hash fits its
    signed 32-bit field); no other check is made, so zero and every other
    size in that range is accepted, and the value of the template
    deserializes to the record holding exactly the numbers given. *)
Theorem sizes_in_uint32_are_accepted_as_is :
  (forall key_size iv_size,
      (Spec.is_uint32 key_size = true -> Spec.is_uint32 iv_size = true ->
       exists t,
         create_aes_eax_key_template key_size iv_size = Ok t /\
         Spec.deserialize (tink_pb2.type_url t) (tink_pb2.value t)
         = Some (Spec.eax_record key_size iv_size)) /\
      (forall t,
          create_aes_eax_key_template key_size iv_size = Ok t ->
          Spec.is_uint32 key_size = true /\ Spec.is_uint32 iv_size = true)) /\
  (forall key_size,
      (Spec.is_uint32 key_size = true ->
       exists t,
         create_aes_gcm_key_template key_size = Ok t /\
         Spec.deserialize (tink_pb2.type_url t) (tink_pb2.value t)
         = Some (Spec.gcm_record key_size)) /\
      (forall t,
          create_aes_gcm_key_template key_size = Ok t ->
          Spec.is_uint32 key_size = true)) /\
  (forall key_size,
      (Spec.is_uint32 key_size = true ->
       exists t,
         create_aes_gcm_siv_key_template key_size = Ok t /\
         Spec.deserialize (tink_pb2.type_url t) (tink_pb2.value t)
         = Some (Spec.gcm_siv_record key_size)) /\
      (forall t,
          create_aes_gcm_siv_key_template key_size = Ok t ->
          Spec.is_uint32 key_size = true)) /\
  (forall aes_key_size iv_size hmac_key_size tag_size hash_type,
      (Spec.is_uint32 aes_key_size = true -> Spec.is_uint32 iv_size = true ->
       Spec.is_uint32 hmac_key_size = true ->
       Spec.is_uint32 tag_size = true -> is_int32 hash_type = true ->
       exists t,
         create_aes_ctr_hmac_aead_key_template aes_key_size iv_size
           hmac_key_size tag_size hash_type = Ok t /\
         Spec.deserialize (tink_pb2.type_url t) (tink_pb2.value t)
         = Some (Spec.ctr_hmac_record aes_key_size iv_size hmac_key_size
                   tag_size hash_type)) /\
      (forall t,
          create_aes_ctr_hmac_aead_key_template aes_key_size iv_size
            hmac_key_size tag_size hash_type = Ok t ->
          Spec.is_uint32 aes_key_size = true /\
          Spec.is_uint32 iv_size = true /\
          Spec.is_uint32 hmac_key_size = true /\
          Spec.is_uint32 tag_size = true /\ is_int32 hash_type = true)).
Proof.
  split; [intros k iv; split |].
  { intros Hk Hiv. rewrite create_aes_eax_key_template_eq, Hk, Hiv.
    eexists. split; [reflexivity |].
    apply (deserialize_serialize (Spec.eax_record k iv)).
    apply representable_accepted.
    rewrite representable_eax_record, Hk, Hiv. reflexivity. }
  { intros t H. apply create_aes_eax_key_template_Ok in H. tauto. }
  split; [intros k; split |].
  { intros Hk. rewrite create_aes_gcm_key_template_eq, Hk.
    eexists. split; [reflexivity |].
    apply (deserialize_serialize (Spec.gcm_record k)). exact Hk. }
  { intros t H. apply create_aes_gcm_key_template_Ok in H. tauto. }
  split; [intros k; split |].
  { intros Hk. rewrite create_aes_gcm_siv_key_template_eq, Hk.
    eexists. split; [reflexivity |].
    apply (deserialize_serialize (Spec.gcm_siv_record k)). exact Hk. }
  { intros t H. apply create_aes_gcm_siv_key_template_Ok in H. tauto. }
  intros a iv h tg hs; split.
  { intros Ha Hiv Hh Htg Hhs.
    rewrite create_aes_ctr_hmac_aead_key_template_eq, Ha, Hiv, Hh, Htg, Hhs.
    eexists. split; [reflexivity |].
    apply (deserialize_serialize (Spec.ctr_hmac_record a iv h tg hs)).
    rewrite accepted_ctr_hmac_record, Ha, Hiv, Hh, Htg, Hhs.
    reflexivity. }
  { intros t H. apply create_aes_ctr_hmac_aead_key_template_Ok in H as [H _].
    rewrite accepted_ctr_hmac_record in H.
    rewrite !andb_true_iff in H. tauto. }
Qed.

Lemma sizes_in_uint32_are_accepted_as_is_witness :
  exists t,
    create_aes_eax_key_template 0 4294967295 = Ok t /\
    Spec.deserialize (tink_pb2.type_url t) (tink_pb2.value t)
    = Some (Spec.eax_record 0 4294967295).
Proof.
  apply (proj1 (proj1 sizes_in_uint32_are_accepted_as_is 0 4294967295));
    reflexivity.
Defined.

(** C10: the module binds exactly nine catalog names, each built without
    error; each is the call of the source with the stated parameters and
    equals the template the specification's encoder and assembler give for
    them; the 256-bit CTR-HMAC entry has tag_size 32 and differs from the
    template with tag_size 16. *)
Theorem catalog_has_nine_fixed_entries :
  map fst catalog
  = [ "AES128_EAX"; "AES256_EAX"; "AES128_GCM"; "AES256_GCM";
      "AES128_GCM_SIV"; "AES256_GCM_SIV"; "AES128_CTR_HMAC_SHA256";
      "AES256_CTR_HMAC_SHA256"; "XCHACHA20_POLY1305" ]%string /\
  length catalog = 9%nat /\
  forallb (fun entry => returns (snd entry)) catalog = true /\
  (AES256_EAX = create_aes_eax_key_template 32 16 /\
   to_option AES256_EAX = Spec.template (Spec.eax_record 32 16)) /\
  (AES128_GCM = create_aes_gcm_key_template 16 /\
   to_option AES128_GCM = Spec.template (Spec.gcm_record 16)) /\
  (AES128_GCM_SIV = create_aes_gcm_siv_key_template 16 /\
   to_option AES128_GCM_SIV = Spec.template (Spec.gcm_siv_record 16)) /\
  (AES256_GCM_SIV = create_aes_gcm_siv_key_template 32 /\
   to_option AES256_GCM_SIV = Spec.template (Spec.gcm_siv_record 32)) /\
  (AES256_CTR_HMAC_SHA256
   = create_aes_ctr_hmac_aead_key_template 32 16 32 32 common_pb2.SHA256 /\
   to_option AES256_CTR_HMAC_SHA256
   = Spec.template (Spec.ctr_hmac_record 32 16 32 32 common_pb2.SHA256) /\
   AES256_CTR_HMAC_SHA256
   <> create_aes_ctr_hmac_aead_key_template 32 16 32 16 common_pb2.SHA256) /\
  (to_option AES128_EAX = Spec.template (Spec.eax_record 16 16) /\
   to_option AES256_GCM = Spec.template (Spec.gcm_record 32) /\
   to_option AES128_CTR_HMAC_SHA256
   = Spec.template (Spec.ctr_hmac_record 16 16 32 16 common_pb2.SHA256) /\
   to_option XCHACHA20_POLY1305 = Spec.template Spec.XCHACHA20_POLY1305).
Proof.
  repeat split; try (vm_compute; reflexivity).
  vm_compute. discriminate.
Qed.

Import Wire WireFacts.

(** * Further properties of the source functions *)

(** ** Helper facts on the size of what the writers leave *)

Lemma EncodeVarint_single (value : Z) :
  0 <= value < 128 -> Wire.EncodeVarint value = [value].
Proof.
  intros Hv. unfold Wire.EncodeVarint.
  rewrite land_127_low, shiftr_7, Z.div_small by exact Hv.
  destruct (Z.to_nat (Z.log2 value)); reflexivity.
Qed.

Lemma EncodeVarint_uint32_length (value : Z) :
  Spec.is_uint32 value = true ->
  (length (Wire.EncodeVarint value) <= 5)%nat.
Proof.
  rewrite is_uint32_range. unfold Wire.UINT32_MAX. intros Hv.
  unfold Wire.EncodeVarint.
  apply (EncodeVarint_loop_length 4). rewrite shiftr_7.
  split; [apply Z.div_pos; lia |].
  apply Z.div_lt_upper_bound; [lia |].
  change (2 ^ (7 * Z.of_nat 4)) with 268435456. lia.
Qed.

Lemma WriteUInt32_bytes (field_number value : Z) :
  Forall Wire.is_byte (Wire.WriteUInt32 field_number value).
Proof.
  unfold Wire.WriteUInt32, Wire.TagBytes.
  destruct (value =? 0); [constructor |].
  apply Forall_app. split; apply EncodeVarint_bytes.
Qed.

Lemma WriteEnum_bytes (field_number value : Z) :
  Forall Wire.is_byte (Wire.WriteEnum field_number value).
Proof.
  unfold Wire.WriteEnum, Wire.TagBytes, Wire.EncodeSignedVarint.
  destruct (value =? 0); [constructor |].
  apply Forall_app. split; apply EncodeVarint_bytes.
Qed.

Lemma WriteMessage_bytes (field_number : Z) (body : option Wire.bytes) :
  (forall bs, body = Some bs -> Forall Wire.is_byte bs) ->
  Forall Wire.is_byte (Wire.WriteMessage field_number body).
Proof.
  intros Hb. unfold Wire.WriteMessage, Wire.TagBytes.
  destruct body as [bs |]; [| constructor].
  apply Forall_app. split; [apply EncodeVarint_bytes |].
  apply Forall_app. split; [apply EncodeVarint_bytes | apply Hb; reflexivity].
Qed.

(** Whatever record is serialized, the result is a byte string. *)
Lemma serialize_bytes (r : Spec.ParameterRecord) :
  Forall Wire.is_byte (Spec.serialize r).
Proof.
  destruct r as [m | m | m | m |]; cbn [Spec.serialize].
  - unfold aes_eax_pb2.SerializeToString.
    apply Forall_app. split; [| apply WriteUInt32_bytes].
    apply WriteMessage_bytes. intros bs E.
    destruct (aes_eax_pb2.params m); [| discriminate].
    injection E as <-. apply WriteUInt32_bytes.
  - apply WriteUInt32_bytes.
  - apply WriteUInt32_bytes.
  - unfold aes_ctr_hmac_aead_pb2.SerializeToString.
    apply Forall_app. split; apply WriteMessage_bytes; intros bs E.
    + destruct (aes_ctr_hmac_aead_pb2.aes_ctr_key_format m) as [c |];
        [| discriminate].
      injection E as <-. unfold aes_ctr_pb2.SerializeToString.
      apply Forall_app. split; [| apply WriteUInt32_bytes].
      apply WriteMessage_bytes. intros bs E.
      destruct (aes_ctr_pb2.params c); [| discriminate].
      injection E as <-. apply WriteUInt32_bytes.
    + destruct (aes_ctr_hmac_aead_pb2.hmac_key_format m) as [h |];
        [| discriminate].
      injection E as <-. unfold hmac_pb2.SerializeToString.
      apply Forall_app. split; [| apply WriteUInt32_bytes].
      apply WriteMessage_bytes. intros bs E.
      destruct (hmac_pb2.params h); [| discriminate].
      injection E as <-. unfold hmac_pb2.HmacParams_SerializeToString.
      apply Forall_app. split; [apply WriteEnum_bytes | apply WriteUInt32_bytes].
  - constructor.
Qed.

(** A size field of number 1 or 2 takes at most six bytes: one for the tag,
    at most five for the number. *)
Lemma WriteUInt32_size (field_number value : Z) :
  field_number = 1 \/ field_number = 2 ->
  Spec.is_uint32 value = true ->
  (length (Wire.WriteUInt32 field_number value) <= 6)%nat.
Proof.
  intros Hf Hv. pose proof (EncodeVarint_uint32_length value Hv) as Hl.
  unfold Wire.WriteUInt32. destruct (value =? 0); [simpl; lia |].
  rewrite length_app. destruct Hf as [-> | ->]; simpl; lia.
Qed.

Lemma WriteEnum_size (value : Z) :
  is_int32 value = true ->
  (length (Wire.WriteEnum 1 value) <= 11)%nat.
Proof.
  intros Hv. apply signed_varint_range in Hv.
  pose proof (EncodeVarint_length _ Hv) as Hl.
  unfold Wire.WriteEnum, Wire.EncodeSignedVarint.
  destruct (value =? 0); [simpl; lia |].
  rewrite length_app. simpl. simpl in Hl. lia.
Qed.

(** A sub-message of fewer than 128 bytes, in field 1 or 2, takes two
    bytes more than its body. *)
Lemma WriteMessage_size (field_number : Z) (bs : Wire.bytes) :
  field_number = 1 \/ field_number = 2 ->
  (length bs < 128)%nat ->
  length (Wire.WriteMessage field_number (Some bs)) = (2 + length bs)%nat.
Proof.
  intros Hf Hl. unfold Wire.WriteMessage.
  rewrite EncodeVarint_single by lia.
  destruct Hf as [-> | ->]; reflexivity.
Qed.

(** ** Properties *)

(** X2: [create_aes_eax_key_template] assigns iv_size before key_size, so
    a refused iv_size is the error reported whatever key_size is, and
    key_size is reported only when iv_size was accepted. *)
Theorem eax_reports_iv_size_before_key_size (key_size iv_size : Z) :
  (Spec.is_uint32 iv_size = false ->
   create_aes_eax_key_template key_size iv_size
   = Raise (ValueOutOfRange iv_size)) /\
  (Spec.is_uint32 iv_size = true -> Spec.is_uint32 key_size = false ->
   create_aes_eax_key_template key_size iv_size
   = Raise (ValueOutOfRange key_size)).
Proof.
  rewrite create_aes_eax_key_template_eq.
  split; [intros -> | intros -> ->]; reflexivity.
Qed.

Lemma eax_reports_iv_size_before_key_size_witness :
  create_aes_eax_key_template (-1) (-2) = Raise (ValueOutOfRange (-2)).
Proof.
  apply (proj1 (eax_reports_iv_size_before_key_size (-1) (-2))).
  reflexivity.
Defined.

(** X3: [create_aes_ctr_hmac_aead_key_template] reports the first argument
    refused in the order of its assignments: iv_size, aes_key_size,
    hash_type, tag_size, hmac_key_size; a size is refused when it does not
    fit 32 unsigned bits, the hash when it does not fit 32 signed bits, so
    an undeclared hash that fits is passed over. *)
Theorem ctr_hmac_reports_first_refused_assignment
  (aes_key_size iv_size hmac_key_size tag_size hash_type : Z) :
  (Spec.is_uint32 iv_size = false ->
   create_aes_ctr_hmac_aead_key_template aes_key_size iv_size hmac_key_size
     tag_size hash_type = Raise (ValueOutOfRange iv_size)) /\
  (Spec.is_uint32 iv_size = true ->
   (Spec.is_uint32 aes_key_size = false ->
    create_aes_ctr_hmac_aead_key_template aes_key_size iv_size hmac_key_size
      tag_size hash_type = Raise (ValueOutOfRange aes_key_size)) /\
   (Spec.is_uint32 aes_key_size = true ->
    (is_int32 hash_type = false ->
     create_aes_ctr_hmac_aead_key_template aes_key_size iv_size hmac_key_size
       tag_size hash_type = Raise (ValueOutOfRange hash_type)) /\
    (is_int32 hash_type = true ->
     (Spec.is_uint32 tag_size = false ->
      create_aes_ctr_hmac_aead_key_template aes_key_size iv_size
        hmac_key_size tag_size hash_type = Raise (ValueOutOfRange tag_size)) /\
     (Spec.is_uint32 tag_size = true ->
      Spec.is_uint32 hmac_key_size = false ->
      create_aes_ctr_hmac_aead_key_template aes_key_size iv_size
        hmac_key_size tag_size hash_type
      = Raise (ValueOutOfRange hmac_key_size))))).
Proof.
  rewrite create_aes_ctr_hmac_aead_key_template_eq.
  split; [intros ->; reflexivity | intros ->].
  split; [intros ->; reflexivity | intros ->].
  split; [intros ->; reflexivity | intros ->].
  split; [intros ->; reflexivity | intros -> ->; reflexivity].
Qed.

Lemma ctr_hmac_reports_first_refused_assignment_witness :
  create_aes_ctr_hmac_aead_key_template 16 16 32 (-1) 99
  = Raise (ValueOutOfRange (-1)).
Proof.
  apply (proj1
           (proj2
              (proj2
                 (proj2
                    (ctr_hmac_reports_first_refused_assignment 16 16 32
                       (-1) 99)
                    eq_refl)
                 eq_refl)
              eq_refl)).
  reflexivity.
Defined.

Lemma eax_record_size (key_size iv_size : Z) :
  Spec.is_uint32 key_size = true -> Spec.is_uint32 iv_size = true ->
  (length (Spec.serialize (Spec.eax_record key_size iv_size)) <= 14)%nat.
Proof.
  intros Hk Hiv. cbn [Spec.serialize Spec.eax_record].
  unfold aes_eax_pb2.SerializeToString,
    aes_eax_pb2.AesEaxParams_SerializeToString.
  cbn [aes_eax_pb2.params aes_eax_pb2.key_size aes_eax_pb2.iv_size
         option_map].
  pose proof (WriteUInt32_size 1 iv_size ltac:(lia) Hiv).
  pose proof (WriteUInt32_size 2 key_size ltac:(lia) Hk).
  rewrite length_app, WriteMessage_size by lia. lia.
Qed.

Lemma ctr_hmac_record_size
  (aes_key_size iv_size hmac_key_size tag_size hash : Z) :
  Spec.is_uint32 aes_key_size = true -> Spec.is_uint32 iv_size = true ->
  Spec.is_uint32 hmac_key_size = true -> Spec.is_uint32 tag_size = true ->
  is_int32 hash = true ->
  (length
     (Spec.serialize
        (Spec.ctr_hmac_record aes_key_size iv_size hmac_key_size tag_size
           hash)) <= 43)%nat.
Proof.
  intros Ha Hiv Hh Htg Hhs. cbn [Spec.serialize Spec.ctr_hmac_record].
  unfold aes_ctr_hmac_aead_pb2.SerializeToString,
    aes_ctr_pb2.SerializeToString, hmac_pb2.SerializeToString,
    aes_ctr_pb2.AesCtrParams_SerializeToString,
    hmac_pb2.HmacParams_SerializeToString.
  cbn [aes_ctr_hmac_aead_pb2.aes_ctr_key_format
         aes_ctr_hmac_aead_pb2.hmac_key_format aes_ctr_pb2.params
         aes_ctr_pb2.key_size aes_ctr_pb2.iv_size hmac_pb2.params
         hmac_pb2.key_size hmac_pb2.hash hmac_pb2.tag_size option_map].
  pose proof (WriteUInt32_size 1 iv_size ltac:(lia) Hiv).
  pose proof (WriteUInt32_size 2 aes_key_size ltac:(lia) Ha).
  pose proof (WriteEnum_size hash Hhs).
  pose proof (WriteUInt32_size 2 tag_size ltac:(lia) Htg).
  pose proof (WriteUInt32_size 2 hmac_key_size ltac:(lia) Hh).
  rewrite length_app.
  rewrite (WriteMessage_size 1), (WriteMessage_size 2);
    rewrite ?length_app, ?WriteMessage_size; rewrite ?length_app; try lia.
Qed.

(** X4: the value of every template the module produces is a string of
    bytes, of at most 43 bytes; the values of EAX templates have at most
    14 bytes, those of GCM and GCM-SIV templates at most 6; the bound 43 is
    reached, by a CTR-HMAC template with the largest sizes and a negative
    hash, which takes ten bytes. *)
Theorem produced_values_are_short_byte_strings :
  (forall t,
      produced t ->
      Forall Wire.is_byte (tink_pb2.value t) /\
      (length (tink_pb2.value t) <= 43)%nat) /\
  (forall key_size iv_size t,
      create_aes_eax_key_template key_size iv_size = Ok t ->
      (length (tink_pb2.value t) <= 14)%nat) /\
  (forall key_size t,
      create_aes_gcm_key_template key_size = Ok t ->
      (length (tink_pb2.value t) <= 6)%nat) /\
  (forall key_size t,
      create_aes_gcm_siv_key_template key_size = Ok t ->
      (length (tink_pb2.value t) <= 6)%nat) /\
  (exists t,
      create_aes_ctr_hmac_aead_key_template 4294967295 4294967295 4294967295
        4294967295 (-1) = Ok t /\
      length (tink_pb2.value t) = 43%nat).
Proof.
  assert (Heax : forall key_size iv_size t,
             create_aes_eax_key_template key_size iv_size = Ok t ->
             (length (tink_pb2.value t) <= 14)%nat).
  { intros k iv t H.
    apply create_aes_eax_key_template_Ok in H as (Hk & Hiv & ->).
    apply eax_record_size; assumption. }
  assert (Hgcm : forall key_size t,
             create_aes_gcm_key_template key_size = Ok t ->
             (length (tink_pb2.value t) <= 6)%nat).
  { intros k t H. apply create_aes_gcm_key_template_Ok in H as (Hk & ->).
    apply WriteUInt32_size; [lia | exact Hk]. }
  assert (Hsiv : forall key_size t,
             create_aes_gcm_siv_key_template key_size = Ok t ->
             (length (tink_pb2.value t) <= 6)%nat).
  { intros k t H. apply create_aes_gcm_siv_key_template_Ok in H as (Hk & ->).
    apply WriteUInt32_size; [lia | exact Hk]. }
  split; [| split; [exact Heax | split; [exact Hgcm | split; [exact Hsiv |]]]].
  - intros t Hp. split.
    + destruct (produced_inv t Hp) as (r & _ & ->). apply serialize_bytes.
    + destruct Hp as [k iv t H | k t H | k t H | a iv h tg hs t H | t H].
      * apply Heax in H. lia.
      * apply Hgcm in H. lia.
      * apply Hsiv in H. lia.
      * apply create_aes_ctr_hmac_aead_key_template_Ok in H as (Hr & ->).
        rewrite accepted_ctr_hmac_record, !andb_true_iff in Hr.
        apply ctr_hmac_record_size; tauto.
      * injection H as <-. simpl. lia.
  - eexists. split; vm_compute; reflexivity.
Qed.

Lemma produced_values_are_short_byte_strings_witness :
  (length [16; 255; 255; 255; 255; 15] <= 6)%nat.
Proof.
  apply (proj1 (proj2 (proj2 produced_values_are_short_byte_strings))
           4294967295
           {| tink_pb2.type_url :=
                "type.googleapis.com/google.crypto.tink.AesGcmKey";
              tink_pb2.value := [16; 255; 255; 255; 255; 15];
              tink_pb2.output_prefix_type := tink_pb2.TINK |}).
  reflexivity.
Defined.

(** X5: a GCM or GCM-SIV template has an empty value exactly when key_size
    is zero, whereas the value of an EAX or CTR-HMAC template is never
    empty: it starts with the tag byte 10 of the first sub-message, which
    the assignment to one of its fields makes present even for a zero
    iv_size. *)
Theorem value_is_empty_exactly_for_zero_gcm_key_size :
  (forall key_size t,
      create_aes_gcm_key_template key_size = Ok t ->
      (tink_pb2.value t = [] <-> key_size = 0)) /\
  (forall key_size t,
      create_aes_gcm_siv_key_template key_size = Ok t ->
      (tink_pb2.value t = [] <-> key_size = 0)) /\
  (forall key_size iv_size t,
      create_aes_eax_key_template key_size iv_size = Ok t ->
      exists rest, tink_pb2.value t = 10 :: rest) /\
  (forall aes_key_size iv_size hmac_key_size tag_size hash_type t,
      create_aes_ctr_hmac_aead_key_template aes_key_size iv_size
        hmac_key_size tag_size hash_type = Ok t ->
      exists rest, tink_pb2.value t = 10 :: rest).
Proof.
  assert (Hw : forall k, Wire.WriteUInt32 2 k = [] <-> k = 0).
  { intros k. unfold Wire.WriteUInt32.
    destruct (Z.eqb_spec k 0) as [-> | Hnz]; [tauto |].
    split; [| contradiction].
    change (Wire.TagBytes 2 Wire.WIRETYPE_VARINT) with [16]. discriminate. }
  split; [intros k t H |].
  { apply create_aes_gcm_key_template_Ok in H as (_ & ->). apply Hw. }
  split; [intros k t H |].
  { apply create_aes_gcm_siv_key_template_Ok in H as (_ & ->). apply Hw. }
  split; [intros k iv t H |].
  { apply create_aes_eax_key_template_Ok in H as (_ & _ & ->).
    eexists. reflexivity. }
  intros a iv h tg hs t H.
  apply create_aes_ctr_hmac_aead_key_template_Ok in H as (_ & ->).
  eexists. reflexivity.
Qed.

Lemma value_is_empty_exactly_for_zero_gcm_key_size_witness :
  tink_pb2.value
    {| tink_pb2.type_url :=
         "type.googleapis.com/google.crypto.tink.AesGcmKey";
       tink_pb2.value := [];
       tink_pb2.output_prefix_type := tink_pb2.TINK |} = [] <-> 0 = 0.
Proof.
  apply (proj1 value_is_empty_exactly_for_zero_gcm_key_size 0).
  reflexivity.
Defined.

(** X6: for the same key_size, [create_aes_gcm_key_template] and
    [create_aes_gcm_siv_key_template] return templates with the same value
    bytes and the same output prefix type; only the type URL tells them
    apart. *)
Theorem gcm_and_gcm_siv_differ_only_in_type_url (key_size : Z)
  (t1 t2 : tink_pb2.KeyTemplate) :
  create_aes_gcm_key_template key_size = Ok t1 ->
  create_aes_gcm_siv_key_template key_size = Ok t2 ->
  tink_pb2.value t1 = tink_pb2.value t2 /\
  tink_pb2.output_prefix_type t1 = tink_pb2.output_prefix_type t2 /\
  tink_pb2.type_url t1 <> tink_pb2.type_url t2.
Proof.
  intros H1 H2.
  apply create_aes_gcm_key_template_Ok in H1 as (_ & ->).
  apply create_aes_gcm_siv_key_template_Ok in H2 as (_ & ->).
  repeat split. discriminate.
Qed.

Lemma gcm_and_gcm_siv_differ_only_in_type_url_witness :
  tink_pb2.value
    {| tink_pb2.type_url :=
         "type.googleapis.com/google.crypto.tink.AesGcmKey";
       tink_pb2.value := [16; 16];
       tink_pb2.output_prefix_type := tink_pb2.TINK |}
  = tink_pb2.value
      {| tink_pb2.type_url :=
           "type.googleapis.com/google.crypto.tink.AesGcmSivKey";
         tink_pb2.value := [16; 16];
         tink_pb2.output_prefix_type := tink_pb2.TINK |}.
Proof.
  apply (gcm_and_gcm_siv_differ_only_in_type_url 16); reflexivity.
Defined.

(** X7: the functions never return each other's templates: a template
    returned by one [create_*] function is not returned by another one for
    any arguments, and none of them returns the XChaCha20-Poly1305
    constant. *)
Theorem templates_of_different_functions_differ :
  (forall k iv k' t,
      create_aes_eax_key_template k iv = Ok t ->
      create_aes_gcm_key_template k' <> Ok t /\
      create_aes_gcm_siv_key_template k' <> Ok t) /\
  (forall k k' t,
      create_aes_gcm_key_template k = Ok t ->
      create_aes_gcm_siv_key_template k' <> Ok t) /\
  (forall a iv h tg hs k k' iv' t,
      create_aes_ctr_hmac_aead_key_template a iv h tg hs = Ok t ->
      create_aes_eax_key_template k iv' <> Ok t /\
      create_aes_gcm_key_template k' <> Ok t /\
      create_aes_gcm_siv_key_template k' <> Ok t) /\
  (forall t,
      XCHACHA20_POLY1305 = Ok t ->
      (forall k iv, create_aes_eax_key_template k iv <> Ok t) /\
      (forall k, create_aes_gcm_key_template k <> Ok t) /\
      (forall k, create_aes_gcm_siv_key_template k <> Ok t) /\
      (forall a iv h tg hs,
          create_aes_ctr_hmac_aead_key_template a iv h tg hs <> Ok t)).
Proof.
  split; [intros k iv k' t H |].
  { apply create_aes_eax_key_template_Ok in H as (_ & _ & ->).
    split; intros H.
    - apply create_aes_gcm_key_template_Ok in H as (_ & H). discriminate H.
    - apply create_aes_gcm_siv_key_template_Ok in H as (_ & H).
      discriminate H. }
  split; [intros k k' t H |].
  { apply create_aes_gcm_key_template_Ok in H as (_ & ->). intros H.
    apply create_aes_gcm_siv_key_template_Ok in H as (_ & H).
    discriminate H. }
  split; [intros a iv h tg hs k k' iv' t H |].
  { apply create_aes_ctr_hmac_aead_key_template_Ok in H as (_ & ->).
    repeat split; intros H.
    - apply create_aes_eax_key_template_Ok in H as (_ & _ & H).
      discriminate H.
    - apply create_aes_gcm_key_template_Ok in H as (_ & H). discriminate H.
    - apply create_aes_gcm_siv_key_template_Ok in H as (_ & H).
      discriminate H. }
  intros t H. injection H as <-.
  repeat split; intros; intros H.
  - apply create_aes_eax_key_template_Ok in H as (_ & _ & H). discriminate H.
  - apply create_aes_gcm_key_template_Ok in H as (_ & H). discriminate H.
  - apply create_aes_gcm_siv_key_template_Ok in H as (_ & H). discriminate H.
  - apply create_aes_ctr_hmac_aead_key_template_Ok in H as (_ & H).
    discriminate H.
Qed.

Lemma templates_of_different_functions_differ_witness :
  create_aes_gcm_siv_key_template 16
  <> Ok {| tink_pb2.type_url :=
             "type.googleapis.com/google.crypto.tink.AesGcmKey";
           tink_pb2.value := [16; 16];
           tink_pb2.output_prefix_type := tink_pb2.TINK |}.
Proof.
  apply (proj1 (proj2 templates_of_different_functions_differ) 16 16).
  reflexivity.
Defined.

Lemma WriteMessage_small (field_number : Z) (bs : Wire.bytes) :
  (length bs < 128)%nat ->
  Wire.WriteMessage field_number (Some bs)
  = Wire.TagBytes field_number Wire.WIRETYPE_LENGTH_DELIMITED
      ++ Z.of_nat (length bs) :: bs.
Proof.
  intros Hl. unfold Wire.WriteMessage.
  rewrite EncodeVarint_single by lia. reflexivity.
Qed.

Lemma hmac_key_format_size (hmac_key_size tag_size hash : Z) :
  Spec.is_uint32 hmac_key_size = true -> Spec.is_uint32 tag_size = true ->
  is_int32 hash = true ->
  (length
     (hmac_pb2.SerializeToString
        {| hmac_pb2.params :=
             Some {| hmac_pb2.hash := hash; hmac_pb2.tag_size := tag_size |};
           hmac_pb2.key_size := hmac_key_size |}) <= 25)%nat.
Proof.
  intros Hh Htg Hhs.
  unfold hmac_pb2.SerializeToString, hmac_pb2.HmacParams_SerializeToString.
  cbn [hmac_pb2.params hmac_pb2.key_size hmac_pb2.hash hmac_pb2.tag_size
         option_map].
  pose proof (WriteEnum_size hash Hhs).
  pose proof (WriteUInt32_size 2 tag_size ltac:(lia) Htg).
  pose proof (WriteUInt32_size 2 hmac_key_size ltac:(lia) Hh).
  rewrite length_app, WriteMessage_size; rewrite ?length_app; lia.
Qed.

(** X8: the value of a CTR-HMAC template is made of two length-prefixed
    parts: the first holds exactly the value bytes of the EAX template for
    the same key size and iv size (the two inner key formats are filled in
    the same way), the second the HMAC key format. *)
Theorem ctr_hmac_value_embeds_eax_value
  (aes_key_size iv_size hmac_key_size tag_size hash_type : Z)
  (t : tink_pb2.KeyTemplate) :
  create_aes_ctr_hmac_aead_key_template aes_key_size iv_size hmac_key_size
    tag_size hash_type = Ok t ->
  exists te mac,
    create_aes_eax_key_template aes_key_size iv_size = Ok te /\
    mac = hmac_pb2.SerializeToString
            {| hmac_pb2.params :=
                 Some {| hmac_pb2.hash := hash_type;
                         hmac_pb2.tag_size := tag_size |};
               hmac_pb2.key_size := hmac_key_size |} /\
    tink_pb2.value t
    = 10 :: Z.of_nat (length (tink_pb2.value te)) :: tink_pb2.value te
        ++ 18 :: Z.of_nat (length mac) :: mac.
Proof.
  intros H.
  apply create_aes_ctr_hmac_aead_key_template_Ok in H as (Hr & ->).
  rewrite accepted_ctr_hmac_record, !andb_true_iff in Hr.
  destruct Hr as [[Hiv Ha] [[Hhs Htg] Hh]].
  rewrite create_aes_eax_key_template_eq, Hiv, Ha.
  eexists. eexists. split; [reflexivity |]. split; [reflexivity |].
  cbn [Spec.assemble tink_pb2.value Spec.serialize Spec.ctr_hmac_record].
  unfold aes_ctr_hmac_aead_pb2.SerializeToString.
  cbn [aes_ctr_hmac_aead_pb2.aes_ctr_key_format
         aes_ctr_hmac_aead_pb2.hmac_key_format option_map].
  pose proof (eax_record_size aes_key_size iv_size Ha Hiv) as Hs1.
  pose proof (hmac_key_format_size hmac_key_size tag_size hash_type Hh Htg
                Hhs) as Hs2.
  rewrite (WriteMessage_small 2) by lia.
  change (aes_ctr_pb2.SerializeToString _)
    with (Spec.serialize (Spec.eax_record aes_key_size iv_size)).
  rewrite (WriteMessage_small 1) by lia.
  change (Wire.TagBytes 1 Wire.WIRETYPE_LENGTH_DELIMITED) with [10].
  change (Wire.TagBytes 2 Wire.WIRETYPE_LENGTH_DELIMITED) with [18].
  reflexivity.
Qed.

Lemma ctr_hmac_value_embeds_eax_value_witness :
  exists te mac,
    create_aes_eax_key_template 16 16 = Ok te /\
    mac = hmac_pb2.SerializeToString
            {| hmac_pb2.params :=
                 Some {| hmac_pb2.hash := common_pb2.SHA256;
                         hmac_pb2.tag_size := 16 |};
               hmac_pb2.key_size := 32 |} /\
    [10; 6; 10; 2; 8; 16; 16; 16; 18; 8; 10; 4; 8; 3; 16; 16; 16; 32]
    = 10 :: Z.of_nat (length (tink_pb2.value te)) :: tink_pb2.value te
        ++ 18 :: Z.of_nat (length mac) :: mac.
Proof.
  apply (ctr_hmac_value_embeds_eax_value 16 16 32 16 common_pb2.SHA256
           {| tink_pb2.type_url :=
                "type.googleapis.com/google.crypto.tink.AesCtrHmacAeadKey";
              tink_pb2.value :=
                [10; 6; 10; 2; 8; 16; 16; 16; 18; 8; 10; 4; 8; 3; 16; 16;
                 16; 32];
              tink_pb2.output_prefix_type := tink_pb2.TINK |}).
  reflexivity.
Defined.

Lemma is_uint32_small (v : Z) : 1 <= v <= 127 -> Spec.is_uint32 v = true.
Proof. intros Hv. apply is_uint32_range. unfold Wire.UINT32_MAX. lia. Qed.

Lemma WriteUInt32_small (field_number v : Z) :
  1 <= v <= 127 ->
  Wire.WriteUInt32 field_number v
  = Wire.TagBytes field_number Wire.WIRETYPE_VARINT ++ [v].
Proof.
  intros Hv. unfold Wire.WriteUInt32.
  destruct (Z.eqb_spec v 0); [lia |].
  rewrite EncodeVarint_single by lia. reflexivity.
Qed.

Lemma WriteEnum_small (field_number v : Z) :
  1 <= v <= 127 ->
  Wire.WriteEnum field_number v
  = Wire.TagBytes field_number Wire.WIRETYPE_VARINT ++ [v].
Proof.
  intros Hv. unfold Wire.WriteEnum, Wire.EncodeSignedVarint.
  destruct (Z.eqb_spec v 0); [lia |].
  destruct (Z.ltb_spec v 0); [lia |].
  rewrite EncodeVarint_single by lia. reflexivity.
Qed.

(** X9: when every size is between 1 and 127 (and the hash is declared and
    not UNKNOWN_HASH), each number takes one byte, and the value has a
    fixed layout: 16 key_size for GCM and GCM-SIV; 10 2 8 iv_size 16
    key_size for EAX; 10 6 10 2 8 iv_size 16 aes_key_size 18 8 10 4 8 hash
    16 tag_size 16 hmac_key_size for CTR-HMAC. *)
Theorem small_sizes_have_fixed_layout :
  (forall key_size t,
      1 <= key_size <= 127 ->
      create_aes_gcm_key_template key_size = Ok t ->
      tink_pb2.value t = [16; key_size]) /\
  (forall key_size t,
      1 <= key_size <= 127 ->
      create_aes_gcm_siv_key_template key_size = Ok t ->
      tink_pb2.value t = [16; key_size]) /\
  (forall key_size iv_size t,
      1 <= key_size <= 127 -> 1 <= iv_size <= 127 ->
      create_aes_eax_key_template key_size iv_size = Ok t ->
      tink_pb2.value t = [10; 2; 8; iv_size; 16; key_size]) /\
  (forall aes_key_size iv_size hmac_key_size tag_size hash_type t,
      1 <= aes_key_size <= 127 -> 1 <= iv_size <= 127 ->
      1 <= hmac_key_size <= 127 -> 1 <= tag_size <= 127 ->
      1 <= hash_type <= 4 ->
      create_aes_ctr_hmac_aead_key_template aes_key_size iv_size
        hmac_key_size tag_size hash_type = Ok t ->
      tink_pb2.value t
      = [10; 6; 10; 2; 8; iv_size; 16; aes_key_size;
         18; 8; 10; 4; 8; hash_type; 16; tag_size; 16; hmac_key_size]).
Proof.
  split; [intros k t Hk H |].
  { apply create_aes_gcm_key_template_Ok in H as (_ & ->).
    cbn [Spec.assemble tink_pb2.value Spec.serialize Spec.gcm_record].
    unfold aes_gcm_pb2.SerializeToString. cbn [aes_gcm_pb2.key_size].
    rewrite WriteUInt32_small by exact Hk. reflexivity. }
  split; [intros k t Hk H |].
  { apply create_aes_gcm_siv_key_template_Ok in H as (_ & ->).
    cbn [Spec.assemble tink_pb2.value Spec.serialize Spec.gcm_siv_record].
    unfold aes_gcm_siv_pb2.SerializeToString. cbn [aes_gcm_siv_pb2.key_size].
    rewrite WriteUInt32_small by exact Hk. reflexivity. }
  split; [intros k iv t Hk Hiv H |].
  { apply create_aes_eax_key_template_Ok in H as (_ & _ & ->).
    cbn [Spec.assemble tink_pb2.value Spec.serialize Spec.eax_record].
    unfold aes_eax_pb2.SerializeToString,
      aes_eax_pb2.AesEaxParams_SerializeToString.
    cbn [aes_eax_pb2.params aes_eax_pb2.key_size aes_eax_pb2.iv_size
           option_map].
    rewrite !WriteUInt32_small by assumption. reflexivity. }
  intros a iv h tg hs t Ha Hiv Hh Htg Hhs H.
  apply create_aes_ctr_hmac_aead_key_template_Ok in H as (_ & ->).
  cbn [Spec.assemble tink_pb2.value Spec.serialize Spec.ctr_hmac_record].
  unfold aes_ctr_hmac_aead_pb2.SerializeToString,
    aes_ctr_pb2.SerializeToString, hmac_pb2.SerializeToString,
    aes_ctr_pb2.AesCtrParams_SerializeToString,
    hmac_pb2.HmacParams_SerializeToString.
  cbn [aes_ctr_hmac_aead_pb2.aes_ctr_key_format
         aes_ctr_hmac_aead_pb2.hmac_key_format aes_ctr_pb2.params
         aes_ctr_pb2.key_size aes_ctr_pb2.iv_size hmac_pb2.params
         hmac_pb2.key_size hmac_pb2.hash hmac_pb2.tag_size option_map].
  rewrite !WriteUInt32_small by assumption.
  rewrite WriteEnum_small by lia. reflexivity.
Qed.

Lemma small_sizes_have_fixed_layout_witness :
  tink_pb2.value
    {| tink_pb2.type_url :=
         "type.googleapis.com/google.crypto.tink.AesEaxKey";
       tink_pb2.value := [10; 2; 8; 12; 16; 24];
       tink_pb2.output_prefix_type := tink_pb2.TINK |}
  = [10; 2; 8; 12; 16; 24].
Proof.
  apply (proj1 (proj2 (proj2 small_sizes_have_fixed_layout)) 24 12).
  - lia.
  - lia.
  - reflexivity.
Defined.

(** X10: the nine names of the catalog are bound to nine pairwise distinct
    templates, although the GCM and GCM-SIV entries of the same key size
    carry the same value bytes. *)
Theorem catalog_templates_are_pairwise_distinct :
  NoDup (map snd catalog) /\
  ~ NoDup (map (fun entry => option_map tink_pb2.value (to_option (snd entry)))
             catalog).
Proof.
  split.
  - unfold catalog. cbn [map snd].
    repeat (constructor;
            [cbn [In]; vm_compute; intuition discriminate |]).
    constructor.
  - intros H. unfold catalog in H. cbn [map snd] in H.
    do 2 apply NoDup_cons_iff in H as [_ H].
    apply NoDup_cons_iff in H as [H _].
    apply H. vm_compute. tauto.
Qed.
